(** * pyssari: a shallow embedding of [pyssari.py]

    The development follows the layout of the Python module: the helper
    functions ([all_eq], [merge_dicts], [valid_date], [flatten]), the calls
    that go through the HTTP session, and the two table builders
    ([get_assets_price_history_pd], [get_assets_metrics_pd]).

    Conventions.
    - A Python [dict] is an association list in insertion order whose keys
      are pairwise distinct; [dict_set] is item assignment.
    - A Python exception is a value of [PyExn]; a computation that may raise
      returns a [result].
    - Code that talks to the session runs in [Py], a state-and-error monad
      whose state is the list of HTTP requests issued so far.
    - A JSON number is kept as its exact value: an integer as [Z], a float as
      the rational it denotes.
    - The values of a time series are [int64] integers or floats.  A numpy
      array has one dtype: an integer that joins floats in an array is cast
      to [float64], which rounds it to 53 significant bits. *)

From Stdlib Require Import List String Ascii Bool Arith ZArith QArith Lia.
Import ListNotations.

Close Scope Q_scope.
Set Implicit Arguments.

(* ================================================================== *)
(** ** Python base layer: exceptions, results, dictionaries            *)
(* ================================================================== *)

Module Py_base.

(** The builtin exceptions this module can raise. *)
Inductive PyExn : Type :=
| IndexError
| AssertionError
| ValueError
| KeyError
| TypeError
| AttributeError.

(** The class name of an exception, as [type(e).__name__] gives it. *)
Definition exn_name (e : PyExn) : string :=
  match e with
  | IndexError => "IndexError"
  | AssertionError => "AssertionError"
  | ValueError => "ValueError"
  | KeyError => "KeyError"
  | TypeError => "TypeError"
  | AttributeError => "AttributeError"
  end.

Inductive result (A : Type) : Type :=
| Ok (a : A)
| Raise (e : PyExn).

Arguments Ok {A} a.
Arguments Raise {A} e.

Definition rbind {A B : Type} (r : result A) (k : A -> result B) : result B :=
  match r with
  | Ok a => k a
  | Raise e => Raise e
  end.

(** Truthiness of a [str]: only the empty string is falsy. *)
Definition truthy (s : string) : bool :=
  match s with
  | EmptyString => false
  | String _ _ => true
  end.

Section Dict.
Variable V : Type.

Definition dict : Type := list (string * V).

Definition keys (d : dict) : list string := map fst d.
Definition values (d : dict) : list V := map snd d.

Fixpoint dict_get (k : string) (d : dict) : option V :=
  match d with
  | [] => None
  | (k', v) :: rest => if String.eqb k k' then Some v else dict_get k rest
  end.

(** [d[k] = v]: an existing key keeps its position and takes the new
    value, a new key goes to the end. *)
Fixpoint dict_set (k : string) (v : V) (d : dict) : dict :=
  match d with
  | [] => [(k, v)]
  | (k', v') :: rest =>
      if String.eqb k k' then (k', v) :: rest
      else (k', v') :: dict_set k v rest
  end.

(** [dict(items)], and also [out.update(items)] started from [out]. *)
Definition dict_update (out : dict) (items : list (string * V)) : dict :=
  fold_left (fun acc kv => dict_set (fst kv) (snd kv) acc) items out.

Definition dict_of_items (items : list (string * V)) : dict :=
  dict_update [] items.

(** The representation invariant of a Python dict. *)
Definition dict_wf (d : dict) : Prop := NoDup (keys d).

(** [merge_dicts]:
<<
    out = {}
    for d in dicts:
        out.update(d)
    return out
>> *)
Definition merge_dicts (dicts : list dict) : dict :=
  fold_left dict_update dicts [].

End Dict.

(** [all_eq(iterator)]: [len(set(iterator)) <= 1]. *)
Definition all_eq (l : list nat) : bool :=
  List.length (nodup Nat.eq_dec l) <=? 1.

(** The builtin [max] on a list of lengths; it raises [ValueError] on an
    empty argument. *)
Definition py_max (l : list nat) : result nat :=
  match l with
  | [] => Raise ValueError
  | x :: rest => Ok (fold_left Nat.max rest x)
  end.

End Py_base.
Import Py_base.

(* ================================================================== *)
(** ** JSON values and the record flattener                            *)
(* ================================================================== *)

#[warnings="-register-all"]
Inductive json : Type :=
| JNull
| JBool (b : bool)
| JInt (n : Z)
| JFloat (x : Q)
| JStr (s : string)
| JList (l : list json)
| JDict (d : list (string * json)).

(** [isinstance(v, MutableMapping)] *)
Definition is_mapping (v : json) : bool :=
  match v with
  | JDict _ => true
  | _ => false
  end.

(** Induction on a nest of mappings: the hypothesis is available for the
    rest of the dict and for the mapping bound to its first key, when that
    value is one. *)
Definition dict_json_ind (P : dict json -> Prop)
  (Hnil : P [])
  (Hcons : forall k v rest,
      (forall d', v = JDict d' -> P d') -> P rest -> P ((k, v) :: rest))
  : forall d, P d :=
  let Pj (m : json) : Prop :=
    match m with
    | JDict d => P d
    | _ => True
    end in
  let F :=
    fix F (m : json) : Pj m :=
      match m return Pj m with
      | JDict d =>
          (fix G (d : list (string * json)) : P d :=
             match d return P d with
             | [] => Hnil
             | (k, v) :: rest =>
                 Hcons k v rest
                   (fun d' (e : v = JDict d') =>
                      match e in _ = m' return Pj m' with
                      | eq_refl => F v
                      end)
                   (G rest)
             end) d
      | _ => I
      end in
  fun d => F (JDict d).

(** [new_key = parent_key + sep + k if parent_key else k] *)
Definition new_key (parent_key sep k : string) : string :=
  if truthy parent_key then (parent_key ++ sep ++ k)%string else k.

(** [flatten(d, parent_key, sep)] for the mapping [JDict d].  The inner
    [loop] is the [for k, v in d.items()] loop building [items]; the result
    is [dict(items)].  The last branch is never taken: [flatten] only calls
    itself on values that passed the [isinstance] test. *)
Fixpoint flatten_mapping (sep : string) (m : json) (parent_key : string)
  {struct m} : dict json :=
  match m with
  | JDict d =>
      dict_of_items
        ((fix loop (d : list (string * json)) : list (string * json) :=
            match d with
            | [] => []
            | (k, v) :: rest =>
                (match v with
                 | JDict _ => flatten_mapping sep v (new_key parent_key sep k)
                 | _ => [(new_key parent_key sep k, v)]
                 end) ++ loop rest
            end) d)
  | _ => []
  end.

Definition flatten (d : dict json) (parent_key sep : string) : dict json :=
  flatten_mapping sep (JDict d) parent_key.

(** What one iteration of the loop adds to [items]. *)
Definition flatten_step (parent_key sep : string) (kv : string * json)
  : list (string * json) :=
  match snd kv with
  | JDict d' => flatten d' (new_key parent_key sep (fst kv)) sep
  | v => [(new_key parent_key sep (fst kv), v)]
  end.

(* ================================================================== *)
(** ** [valid_date]                                                     *)
(* ================================================================== *)

(** [datetime.strptime(date_text, "%Y-%m-%d")] on an ASCII string.  The
    standard library turns the format into the regular expression
<<
      (?P<Y>\d\d\d\d)-(?P<m>1[0-2]|0[1-9]|[1-9])-(?P<d>3[0-1]|[1-2]\d|0[1-9]|[1-9]| [1-9])
>>
    matches it at the start of the text, raises [ValueError] when text is
    left over, and raises [ValueError] again when the three numbers are not
    a date of the proleptic Gregorian calendar with a year from 1 to 9999. *)
Module Strptime.
Local Open Scope N_scope.

Definition in_range (lo hi : N) (c : ascii) : bool :=
  (lo <=? N_of_ascii c) && (N_of_ascii c <=? hi).

(** ['0'] is code 48, ['9'] is code 57. *)
Definition digit (lo hi : N) (c : ascii) : bool := in_range (48 + lo) (48 + hi) c.
Definition digit_val (c : ascii) : N := N_of_ascii c - 48.

Definition is_char (x : ascii) (c : ascii) : bool := Ascii.eqb x c.

(** The matches of a group, in the order in which the regex engine tries
    its alternatives: the value read and the text that follows. *)
Definition match_Y (s : list ascii) : list (N * list ascii) :=
  match s with
  | a :: b :: c :: d :: r =>
      if digit 0 9 a && digit 0 9 b && digit 0 9 c && digit 0 9 d
      then [(1000 * digit_val a + 100 * digit_val b + 10 * digit_val c
             + digit_val d, r)]
      else []
  | _ => []
  end.

Definition two (p1 p2 : ascii -> bool) (s : list ascii) : list (N * list ascii) :=
  match s with
  | a :: b :: r => if p1 a && p2 b then [(10 * digit_val a + digit_val b, r)] else []
  | _ => []
  end.

Definition one (p : ascii -> bool) (s : list ascii) : list (N * list ascii) :=
  match s with
  | a :: r => if p a then [(digit_val a, r)] else []
  | _ => []
  end.

Definition space_one (p : ascii -> bool) (s : list ascii) : list (N * list ascii) :=
  match s with
  | a :: b :: r => if is_char " " a && p b then [(digit_val b, r)] else []
  | _ => []
  end.

Definition match_m (s : list ascii) : list (N * list ascii) :=
  two (digit 1 1) (digit 0 2) s ++ two (digit 0 0) (digit 1 9) s
  ++ one (digit 1 9) s.

Definition match_d (s : list ascii) : list (N * list ascii) :=
  two (digit 3 3) (digit 0 1) s ++ two (digit 1 2) (digit 0 9) s
  ++ two (digit 0 0) (digit 1 9) s ++ one (digit 1 9) s
  ++ space_one (digit 1 9) s.

Definition match_dash (s : list ascii) : list (unit * list ascii) :=
  match s with
  | a :: r => if is_char "-" a then [(tt, r)] else []
  | _ => []
  end.

(** Sequencing with backtracking: every way of matching [p] followed by
    every way of matching what [k] asks for, leftmost alternatives first. *)
Definition seq {A B : Type} (p : list (A * list ascii))
  (k : A -> list ascii -> list (B * list ascii)) : list (B * list ascii) :=
  flat_map (fun ar => k (fst ar) (snd ar)) p.

Definition regex_match (s : list ascii) : list ((N * N * N) * list ascii) :=
  seq (match_Y s) (fun y s1 =>
  seq (match_dash s1) (fun _ s2 =>
  seq (match_m s2) (fun m s3 =>
  seq (match_dash s3) (fun _ s4 =>
  seq (match_d s4) (fun d s5 => [((y, m, d), s5)]))))).

Definition is_leap (y : N) : bool :=
  (y mod 4 =? 0) && (negb (y mod 100 =? 0) || (y mod 400 =? 0)).

Definition days_in_month (y m : N) : N :=
  match m with
  | 2 => if is_leap y then 29 else 28
  | 4 | 6 | 9 | 11 => 30
  | _ => 31
  end.

(** The checks of the [date] constructor. *)
Definition date_ok (y m d : N) : bool :=
  (1 <=? y) && (y <=? 9999) && (1 <=? m) && (m <=? 12)
  && (1 <=? d) && (d <=? days_in_month y m).

Definition strptime (date_text : string) : result (N * N * N) :=
  match regex_match (list_ascii_of_string date_text) with
  | [] => Raise ValueError                       (* does not match format *)
  | ((y, m, d), rest) :: _ =>
      match rest with
      | _ :: _ => Raise ValueError               (* unconverted data remains *)
      | [] => if date_ok y m d then Ok (y, m, d) else Raise ValueError
      end
  end.

End Strptime.

(** [valid_date]:
<<
      try:
          datetime.strptime(date_text, DATE_FMT)
      except:
          return False
      return True
>> *)
Definition valid_date (date_text : string) : bool :=
  match Strptime.strptime date_text with
  | Ok _ => true
  | Raise _ => false
  end.

(* ================================================================== *)
(** ** The HTTP session                                                *)
(* ================================================================== *)

Definition BASE_URL : string := "https://data.messari.io".
Definition DATE_FMT : string := "%Y-%m-%d".

(** What [session.request(method, url, params=params, ...)] is given. *)
Record request : Type := mk_request {
  req_method : string;
  req_url : string;
  req_params : list (string * option string)
}.

(** The integers of numpy's [int64], the dtype [np.asarray] gives a list of
    Python ints. *)
Definition int64_range (z : Z) : bool :=
  (-9223372036854775808 <=? z)%Z && (z <=? 9223372036854775807)%Z.

Record int64 : Type := mk_int64 {
  int64_val : Z;
  int64_in_range : int64_range int64_val = true
}.

(** The value of an observation as decoded from JSON: a Python [int] or a
    [float]. *)
Inductive number : Type :=
| PyInt (i : int64)
| PyFloat (x : Q).

Definition is_float (v : number) : bool :=
  match v with
  | PyFloat _ => true
  | PyInt _ => false
  end.


(** The integer a binary64 float holds after the conversion of an integer:
    up to 2^53 in magnitude every integer is kept; a larger one keeps its 53
    leading bits, rounded to the nearest, a tie going to the even one. *)
Definition round_binary64 (z : Z) : Z :=
  let a := Z.abs z in
  if (a <=? 9007199254740992)%Z then z
  else
    let e := (Z.log2 a - 52)%Z in
    let q := Z.shiftr a e in
    let r := (a - Z.shiftl q e)%Z in
    let half := Z.shiftl 1 (e - 1) in
    let q' := if (half <? r)%Z || ((r =? half)%Z && Z.odd q)
              then (q + 1)%Z else q in
    (Z.sgn z * Z.shiftl q' e)%Z.

(** The cast of an array element to dtype [float64]. *)
Definition to_float64 (v : number) : number :=
  match v with
  | PyInt i => PyFloat (inject_Z (round_binary64 (int64_val i)))
  | PyFloat x => PyFloat x
  end.

(** One observation of a time series: [[timestamp_ms, value]].  The
    timestamp is an integer of the range the platform converts to a date,
    which binary64 holds exactly. *)
Definition point : Type := (Z * number)%type.

(** Everything outside the module that its functions read: the remote API
    and the clock of the machine.  A reply to a time-series request is
    represented by the list found under [data.values], a reply to a metrics
    request by the decoded JSON body. *)
Record World : Type := mk_World {
  (** [date.today().strftime(DATE_FMT)] *)
  today : string;
  (** [(date.today() - timedelta(days=365)).strftime(DATE_FMT)] *)
  year_ago : string;
  (** [datetime.fromtimestamp(sec).strftime(DATE_FMT)], which depends on
      the local time zone; the timestamps are taken to be in the range the
      platform converts *)
  local_date : Z -> string;
  timeseries_values : request -> list point;
  metrics_json : request -> json
}.

(** Computations that may raise and that record the requests they send. *)
Definition Py (A : Type) : Type := list request -> result A * list request.

Definition ret {A : Type} (a : A) : Py A := fun log => (Ok a, log).

Definition bind {A B : Type} (m : Py A) (k : A -> Py B) : Py B :=
  fun log =>
    match m log with
    | (Ok a, log') => k a log'
    | (Raise e, log') => (Raise e, log')
    end.

Definition lift {A : Type} (r : result A) : Py A := fun log => (r, log).

Definition raise {A : Type} (e : PyExn) : Py A := lift (Raise e).

(** [assert b] *)
Definition py_assert (b : bool) : Py unit :=
  if b then ret tt else raise AssertionError.

Declare Scope py_scope.
Delimit Scope py_scope with py.
Notation "x <- m ;; k" := (bind m (fun x => k))
  (at level 61, m at next level, right associativity) : py_scope.
Notation "m ;;; k" := (bind m (fun _ => k))
  (at level 61, right associativity) : py_scope.

(** [list(map(f, l))]: the calls are made from left to right and the first
    exception ends the traversal. *)
Fixpoint map_py {A B : Type} (f : A -> Py B) (l : list A) : Py (list B) :=
  match l with
  | [] => ret []
  | a :: rest =>
      (b <- f a ;; bs <- map_py f rest ;; ret (b :: bs))%py
  end.

Fixpoint map_result {A B : Type} (f : A -> result B) (l : list A)
  : result (list B) :=
  match l with
  | [] => Ok []
  | a :: rest =>
      rbind (f a) (fun b => rbind (map_result f rest) (fun bs => Ok (b :: bs)))
  end.

Section Session.
Variable w : World.

(** [_send_message]: the request goes out, the decoded reply comes back. *)
Definition send_message {A : Type} (reply : request -> A)
  (method endpoint : string) (params : list (string * option string)) : Py A :=
  fun log =>
    let r := mk_request method (BASE_URL ++ endpoint) params in
    (Ok (reply r), log ++ [r]).

Definition get_ {A : Type} (reply : request -> A) (endpoint : string)
  (params : list (string * option string)) : Py A :=
  send_message reply "GET" endpoint params.

(** [get_asset_timeseries(asset_key, metric_id, **params)] followed by
    [.get('data').get('values')]. *)
Definition get_asset_timeseries (asset_key metric_id : string)
  (params : list (string * option string)) : Py (list point) :=
  let path := ("/api/v1/assets/" ++ asset_key ++ "/metrics/" ++ metric_id
               ++ "/time-series")%string in
  get_ (timeseries_values w) path params.

(** [get_asset_metrics(asset_key, fields=None)] *)
Definition get_asset_metrics (asset_key : string) (fields : option string)
  : Py json :=
  let path := ("/api/v1/assets/" ++ asset_key ++ "/metrics")%string in
  get_ (metrics_json w) path [("fields"%string, fields)].

(** [if not x: x = dflt] for an argument that is [None] or a [str]. *)
Definition or_default (x : option string) (dflt : string) : string :=
  match x with
  | Some s => if truthy s then s else dflt
  | None => dflt
  end.

(** [get_asset_price_history] *)
Definition get_asset_price_history (asset_key : string)
  (start_date end_date : option string) (columns interval : string)
  : Py (list point) :=
  (let end_date := or_default end_date (today w) in
   let start_date := or_default start_date (year_ago w) in
   py_assert (valid_date start_date) ;;;
   py_assert (valid_date end_date) ;;;
   ts <- get_asset_timeseries asset_key "price"
           [("columns"%string, Some columns); ("interval"%string, Some interval);
            ("start"%string, Some start_date); ("end"%string, Some end_date)] ;;
   ret ts)%py.

End Session.

(* ================================================================== *)
(** ** The multi-asset aligner                                         *)
(* ================================================================== *)

(** [np.asarray(series)]: one array, with one dtype, for the whole series.
    It is [float64] as soon as one value is a float, and every integer value
    is then converted; a series of integers gives an [int64] array that
    holds them as they are. *)
Definition has_float (series : list point) : bool :=
  existsb (fun p => is_float (snd p)) series.

Definition np_asarray (series : list point) : list point :=
  if has_float series
  then map (fun p => (fst p, to_float64 (snd p))) series
  else series.

(** [np.asarray(series)[:, i]].  An empty list gives a one-dimensional
    array, and indexing it with two indices raises [IndexError]. *)
Definition np_column {A : Type} (proj : point -> A) (series : list point)
  : result (list A) :=
  match series with
  | [] => Raise IndexError
  | _ :: _ => Ok (map proj (np_asarray series))
  end.

(** [np.zeros(n)]: [n] floats. *)
Definition np_zeros (n : nat) : list number := repeat (PyFloat 0%Q) n.

(** [np.concatenate([zeros, v])] with [zeros] of dtype [float64]: the result
    is a [float64] array, the elements of [v] are cast to it. *)
Definition np_concatenate (zeros v : list number) : list number :=
  zeros ++ map to_float64 v.

(** The table [pd.DataFrame(data, index=dates)]: a row label per row and
    one value column per key of [data]. *)
Record DataFrame : Type := mk_DataFrame {
  df_index : list string;
  df_columns : dict (list number)
}.

(** [pd.DataFrame(data, index=index)] for a dict of arrays: pandas raises
    [ValueError] ("Length of values does not match length of index") when
    an array and the index differ in length. *)
Definition pd_DataFrame (data : dict (list number)) (index : list string)
  : result DataFrame :=
  if forallb (fun kv => List.length (snd kv) =? List.length index) data
  then Ok (mk_DataFrame index data)
  else Raise ValueError.

(** [asset_data[0]] *)
Definition first_item {A : Type} (l : list A) : result A :=
  match l with
  | [] => Raise IndexError
  | x :: _ => Ok x
  end.

(** [int(t / 1000)]: true division, then truncation towards zero. *)
Definition ms_to_sec (t : Z) : Z := Z.quot t 1000.

(** The padding comprehension:
<<
      {k: np.concatenate([np.zeros(max_len - len(v)), v]) for k, v in data.items()}
>> *)
Definition pad_columns (max_len : nat) (data : dict (list number))
  : dict (list number) :=
  map (fun kv => (fst kv,
                  np_concatenate (np_zeros (max_len - List.length (snd kv)))
                                 (snd kv))) data.

(** [lambda x: {x[0]: np.asarray(x[1])[:, 1]}] *)
Definition prep_entry (x : string * list point)
  : result (list (string * list number)) :=
  rbind (np_column snd (snd x)) (fun col => Ok [(fst x, col)]).

(** Everything [get_assets_price_history_pd] does once the series have been
    fetched. *)
Definition align (w : World) (list_of_assets : list string)
  (asset_data : list (list point)) : result DataFrame :=
  rbind (first_item asset_data) (fun first =>
  rbind (np_column fst first) (fun time =>
  let dates := map (fun t => local_date w (ms_to_sec t)) time in
  rbind (map_result prep_entry (combine list_of_assets asset_data))
        (fun prep_data =>
  let data := merge_dicts prep_data in
  let lens := map (@List.length number) (values data) in
  rbind (py_max lens) (fun max_len =>
  let data := if negb (all_eq lens) then pad_columns max_len data else data in
  pd_DataFrame data dates)))).

(** [get_assets_price_history_pd] *)
Definition get_assets_price_history_pd (w : World)
  (list_of_assets : list string) (start_date end_date : option string)
  (columns interval : string) : Py DataFrame :=
  (asset_data <- map_py (fun key =>
                   get_asset_price_history w key start_date end_date
                                           columns interval)
                 list_of_assets ;;
   lift (align w list_of_assets asset_data))%py.

(** Running a computation from a state in which nothing has been sent. *)
Definition run {A : Type} (m : Py A) : result A * list request := m [].

(* ================================================================== *)
(** ** The metrics table                                               *)
(* ================================================================== *)

(** Row labels of a [pd.Series]: the keys of a dict, or positions. *)
Inductive label : Type :=
| LKey (k : string)
| LPos (i : nat).

Definition Series : Type := list (label * json).

Definition series_of_dict (d : dict json) : Series :=
  map (fun kv => (LKey (fst kv), snd kv)) d.

(** [pd.Series(data)] for decoded JSON: a dict gives one entry per key, a
    list one entry per position, [None] the empty series and any other
    scalar a single entry at position 0. *)
Definition pd_Series (data : json) : Series :=
  match data with
  | JDict d => series_of_dict d
  | JList l => combine (map LPos (seq 0 (List.length l))) l
  | JNull => []
  | v => [(LPos 0, v)]
  end.

(** [metrics['data']] *)
Definition subscript_data (metrics : json) : result json :=
  match metrics with
  | JDict d =>
      match dict_get "data" d with
      | Some v => Ok v
      | None => Raise KeyError
      end
  | _ => Raise TypeError
  end.

(** [flatten(data)] as called on a decoded reply: a value without [.items()]
    raises [AttributeError]. *)
Definition flatten_call (data : json) : result (dict json) :=
  match data with
  | JDict d => Ok (flatten d "" "_")
  | _ => Raise AttributeError
  end.

(** [v is not None] *)
Definition is_not_None (v : json) : bool :=
  match v with
  | JNull => false
  | _ => true
  end.

(** [isinstance(v, int)]: [bool] is a subclass of [int]. *)
Definition isinstance_int (v : json) : bool :=
  match v with
  | JInt _ | JBool _ => true
  | _ => false
  end.

(** [isinstance(v, float)] *)
Definition isinstance_float (v : json) : bool :=
  match v with
  | JFloat _ => true
  | _ => false
  end.

(** The two comprehensions applied to [flattened]. *)
Definition numeric_filter (flattened : dict json) : dict json :=
  let filtered := filter (fun kv => is_not_None (snd kv)) flattened in
  filter (fun kv => isinstance_int (snd kv) || isinstance_float (snd kv)) filtered.

(** The body of the loop of [get_assets_metrics_pd] after the request. *)
Definition metrics_series (flatten_df : bool) (metrics : json) : result Series :=
  rbind (subscript_data metrics) (fun data =>
  if flatten_df
  then rbind (flatten_call data) (fun flattened =>
       Ok (series_of_dict (numeric_filter flattened)))
  else Ok (pd_Series data)).

(** The [for asset in list_of_assets] loop, threading [D]. *)
Fixpoint metrics_loop (w : World) (flatten_df : bool) (assets : list string)
  (D : dict Series) : Py (dict Series) :=
  match assets with
  | [] => ret D
  | asset :: rest =>
      (metrics <- get_asset_metrics w asset None ;;
       s <- lift (metrics_series flatten_df metrics) ;;
       metrics_loop w flatten_df rest (dict_set asset s D))%py
  end.

(** [get_assets_metrics_pd].  The frame [pd.DataFrame.from_dict(D)] is
    represented by [D] itself, one column per asset; iterating over the
    default [list_of_assets=None] raises [TypeError]. *)
Definition get_assets_metrics_pd (w : World)
  (list_of_assets : option (list string)) (flatten_df : bool)
  : Py (dict Series) :=
  match list_of_assets with
  | None => raise TypeError
  | Some assets => metrics_loop w flatten_df assets []
  end.

(* ================================================================== *)
(** ** Vocabulary for the statements about [flatten]                   *)
(* ================================================================== *)

(** [v] is the value found in [d] by following the keys of [path]. *)
Inductive value_at : dict json -> list string -> json -> Prop :=
| value_here (d : dict json) (k : string) (v : json) :
    In (k, v) d -> value_at d [k] v
| value_below (d d' : dict json) (k : string) (path : list string) (v : json) :
    In (k, JDict d') d -> value_at d' path v -> value_at d (k :: path) v.

(** [sep.join(path)] *)
Fixpoint join (sep : string) (path : list string) : string :=
  match path with
  | [] => EmptyString
  | [k] => k
  | k :: rest => (k ++ sep ++ join sep rest)%string
  end.

(** The key that the successive [new_key] computations give to a path
    entered with [parent_key]. *)
Fixpoint flat_key (sep : string) (parent_key : string) (path : list string)
  : string :=
  match path with
  | [] => parent_key
  | k :: rest => flat_key sep (new_key parent_key sep k) rest
  end.

(** The values of [m] that are not mappings, with their key paths, in the
    order in which [flatten] meets them. *)
Fixpoint leaf_paths (m : json) : list (list string * json) :=
  match m with
  | JDict d =>
      (fix loop (d : list (string * json)) : list (list string * json) :=
         match d with
         | [] => []
         | (k, v) :: rest =>
             (match v with
              | JDict _ => map (fun pv => (k :: fst pv, snd pv)) (leaf_paths v)
              | _ => [([k], v)]
              end) ++ loop rest
         end) d
  | _ => []
  end.

(** The items that the calls of [flatten] append, before any [dict(items)]
    merges equal keys. *)
Definition leaf_items (sep : string) (d : dict json) (parent_key : string)
  : list (string * json) :=
  map (fun pv => (flat_key sep parent_key (fst pv), snd pv)) (leaf_paths (JDict d)).

(** A property of every mapping nested in [m], [m] included.  Mappings
    inside lists are values, not part of the nesting. *)
Fixpoint forall_mappings (P : dict json -> bool) (m : json) : bool :=
  match m with
  | JDict d => P d && forallb (fun kv => forall_mappings P (snd kv)) d
  | _ => true
  end.

Fixpoint nodupb (l : list string) : bool :=
  match l with
  | [] => true
  | x :: rest => negb (existsb (String.eqb x) rest) && nodupb rest
  end.

(** Every mapping of the nest is a dict: no key occurs twice in it. *)
Definition dicts_wf (d : dict json) : bool :=
  forall_mappings (fun d' => nodupb (keys d')) (JDict d).

Fixpoint has_char (c : ascii) (s : string) : bool :=
  match s with
  | EmptyString => false
  | String a rest => Ascii.eqb a c || has_char c rest
  end.

(** No key of the nest contains the character [c]. *)
Definition keys_free_of (c : ascii) (d : dict json) : bool :=
  forall_mappings (fun d' => forallb (fun k => negb (has_char c k)) (keys d'))
                  (JDict d).

(** No value of the nest is an empty mapping. *)
Definition no_empty_mapping (d : dict json) : bool :=
  forallb (fun kv => forall_mappings
                       (fun d' => match d' with [] => false | _ => true end)
                       (snd kv)) d.

(** At top level the empty key is not bound to a mapping. *)
Definition no_empty_top_key (d : dict json) : bool :=
  forallb (fun kv => truthy (fst kv) || negb (is_mapping (snd kv))) d.

(** [s.split(c)] for a one-character separator. *)
Fixpoint split (c : ascii) (s : string) : list string :=
  match s with
  | EmptyString => [EmptyString]
  | String a rest =>
      if Ascii.eqb a c then EmptyString :: split c rest
      else match split c rest with
           | h :: t => String a h :: t
           | [] => [String a EmptyString]
           end
  end.

(** Binding [v] at the end of [path] inside [d], creating the mappings on
    the way when they are not there yet. *)
Fixpoint insert_path (path : list string) (v : json) (d : dict json)
  : dict json :=
  match path with
  | [] => d
  | k :: rest =>
      match rest with
      | [] => dict_set k v d
      | _ :: _ =>
          let sub := match dict_get k d with
                     | Some (JDict s) => s
                     | _ => []
                     end in
          dict_set k (JDict (insert_path rest v sub)) d
      end
  end.

(** One step of the re-nesting: a leaf, given by its path and its value, is
    put into [acc]. *)
Definition insert_leaf (acc : dict json) (pv : list string * json) : dict json :=
  insert_path (fst pv) (snd pv) acc.

(** Modelled from the spec: the module has no inverse of [flatten]; this is
    the "re-nesting by splitting each key on the separator" of the
    round-trip law, each flattened entry being put back at the path that
    its key splits into. *)
Definition unflatten (c : ascii) (flat : dict json) : dict json :=
  fold_left (fun acc kv => insert_path (split c (fst kv)) (snd kv) acc) flat [].

(** Flat mappings: no value is itself a mapping. *)
Definition is_flat (d : dict json) : bool :=
  forallb (fun kv => negb (is_mapping (snd kv))) d.

(* ================================================================== *)
(** ** Requests and sample worlds used in the statements               *)
(* ================================================================== *)

(** The request that [get_asset_metrics(asset)] sends. *)
Definition metrics_request (asset : string) : request :=
  mk_request "GET" (BASE_URL ++ "/api/v1/assets/" ++ asset ++ "/metrics")
             [("fields"%string, None)].

(** The request that [get_asset_price_history] sends once its dates are
    settled. *)
Definition price_request (asset columns interval start_date end_date : string)
  : request :=
  mk_request "GET"
             (BASE_URL ++ "/api/v1/assets/" ++ asset ++ "/metrics/price/time-series")
             [("columns"%string, Some columns); ("interval"%string, Some interval);
              ("start"%string, Some start_date); ("end"%string, Some end_date)].

(** The dates a fetch works with after the defaults have been applied. *)
Definition settled_start (w : World) (start_date : option string) : string :=
  or_default start_date (year_ago w).

Definition settled_end (w : World) (end_date : option string) : string :=
  or_default end_date (today w).

(** The series the server holds for an asset under the given arguments. *)
Definition fetched (w : World) (start_date end_date : option string)
  (columns interval : string) (asset : string) : list point :=
  timeseries_values w
    (price_request asset columns interval
                   (settled_start w start_date) (settled_end w end_date)).

(** The values of a series, oldest first. *)
Definition value_column (series : list point) : list number := map snd series.

(** The values of the array made of a series, [np.asarray(series)[:, 1]]
    for a series that is not empty. *)
Definition array_values (series : list point) : list number :=
  value_column (np_asarray series).

(** The column a table of [rows] rows holds for a series: the values of its
    array when all series have the same length, and the padded array
    otherwise. *)
Definition table_column (same_length : bool) (rows : nat) (series : list point)
  : list number :=
  if same_length then array_values series
  else np_concatenate (np_zeros (rows - List.length series)) (array_values series).

(** The row labels made from the timestamps of a series. *)
Definition date_column (w : World) (series : list point) : list string :=
  map (fun t => local_date w (ms_to_sec t)) (map fst series).

(** The asset key inside the URL of a request of this module (the path is
    [/api/v1/assets/<key>/metrics...]); used only to build sample servers. *)
Fixpoint drop_string (n : nat) (s : string) : string :=
  match n, s with
  | S n', String _ rest => drop_string n' rest
  | _, _ => s
  end.

Fixpoint until_slash (s : string) : string :=
  match s with
  | EmptyString => EmptyString
  | String a rest => if Ascii.eqb a "/" then EmptyString else String a (until_slash rest)
  end.

Definition asset_of_request (r : request) : string :=
  until_slash (drop_string (String.length BASE_URL + 15) (req_url r)).

(** The integer value [z] of a sample series ([0] outside the range of
    [int64]). *)
Definition int_value (z : Z) : number :=
  PyInt (match int64_range z as b return int64_range z = b -> int64 with
         | true => fun H => mk_int64 z H
         | false => fun _ => mk_int64 0 eq_refl
         end eq_refl).


(** A sample world: a server that answers from two tables, a clock fixed
    on 2021-06-15 and a time zone in which UTC days are local days. *)
Definition sample_world (prices : dict (list point)) (metrics : dict json)
  : World :=
  mk_World "2021-06-15" "2020-06-15"
           (fun sec => if (sec <? 86400)%Z then "1970-01-01"%string
                       else "1970-01-02"%string)
           (fun r => match dict_get (asset_of_request r) prices with
                     | Some series => series
                     | None => []
                     end)
           (fun r => match dict_get (asset_of_request r) metrics with
                     | Some body => body
                     | None => JNull
                     end).

(** The scenario of two assets in which the second has one day less of
    history than the first. *)
Definition world_B_shorter : World :=
  sample_world [("A"%string, [(0%Z, int_value 10); (86400000%Z, int_value 20)]);
                ("B"%string, [(86400000%Z, int_value 5)])] [].

(** The same two series with the assets exchanged in the tables: now the
    first asset asked for is the one with less history. *)
Definition world_A_shorter : World :=
  sample_world [("A"%string, [(86400000%Z, int_value 5)]);
                ("B"%string, [(0%Z, int_value 10); (86400000%Z, int_value 20)])] [].

(** Two assets with two days of history each. *)
Definition world_same_length : World :=
  sample_world [("A"%string, [(0%Z, int_value 10); (86400000%Z, int_value 20)]);
                ("B"%string, [(0%Z, int_value 7); (86400000%Z, int_value 5)])] [].


(* ================================================================== *)
(** ** The command line                                                *)
(* ================================================================== *)

(** The character of a digit. *)
Definition chr_digit (n : N) : ascii := ascii_of_N (48 + n).

(** [str(datetime(y, m, d))[:-9]]: the text of a [datetime] at midnight is
    [YYYY-MM-DD 00:00:00], with the year on four digits and the month and
    the day on two; dropping the last nine characters leaves the date. *)
Definition isoformat_date (y m d : N) : string :=
  string_of_list_ascii
    [chr_digit (y / 1000 mod 10); chr_digit (y / 100 mod 10);
     chr_digit (y / 10 mod 10); chr_digit (y mod 10); "-"%char;
     chr_digit (m / 10); chr_digit (m mod 10); "-"%char;
     chr_digit (d / 10); chr_digit (d mod 10)].

(** The converter of the [--start] and [--end] options:
    [lambda s: str(datetime.strptime(s, '%Y-%m-%d'))[:-9]]. *)
Definition cli_date (s : string) : result string :=
  rbind (Strptime.strptime s)
        (fun ymd => Ok (isoformat_date (fst (fst ymd)) (snd (fst ymd)) (snd ymd))).

(** The keys of a list in the order in which they are first seen: the key
    order of a dict filled by assigning them one after the other. *)
Definition first_seen (l : list string) : list string :=
  fold_left (fun acc a => if existsb (String.eqb a) acc then acc else acc ++ [a])
            l [].

(* ================================================================== *)
(** * Properties                                                       *)
(* ================================================================== *)

Unset Implicit Arguments.

(** ** Dictionaries *)

Section Dict_facts.
Context {V : Type}.
Implicit Types (d acc items : dict V) (k : string) (v : V).

Lemma dict_set_fresh k v d :
  ~ In k (keys d) -> dict_set k v d = d ++ [(k, v)].
Proof.
  induction d as [|[k' v'] rest IH]; simpl; intros Hk; [reflexivity|].
  destruct (String.eqb_spec k k') as [->|_].
  - exfalso. apply Hk. now left.
  - rewrite IH; [reflexivity|]. intros Hin. apply Hk. now right.
Qed.

Lemma dict_update_fresh items : forall acc,
  NoDup (keys acc ++ keys items) -> dict_update acc items = acc ++ items.
Proof.
  unfold dict_update.
  induction items as [|[k v] rest IH]; simpl; intros acc Hnd.
  - now rewrite app_nil_r.
  - apply NoDup_remove in Hnd as [Hnd Hk].
    rewrite dict_set_fresh by (intros Hin; apply Hk, in_or_app; now left).
    rewrite IH.
    + now rewrite <- app_assoc.
    + unfold keys in *. rewrite map_app. simpl. rewrite <- app_assoc. simpl.
      apply NoDup_Add with (a := k) (l := map fst acc ++ map fst rest);
        [apply Add_app | split; assumption].
Qed.

Lemma dict_of_items_nodup items :
  NoDup (keys items) -> dict_of_items items = items.
Proof.
  intros Hnd. unfold dict_of_items. now rewrite dict_update_fresh.
Qed.

End Dict_facts.

(** ** The loop of [flatten] *)

Lemma flatten_unfold (d : dict json) (parent_key sep : string) :
  flatten d parent_key sep =
  dict_of_items (flat_map (flatten_step parent_key sep) d).
Proof.
  unfold flatten. simpl. f_equal.
  induction d as [|[k v] rest IH]; simpl; [reflexivity|].
  rewrite IH. unfold flatten_step. simpl.
  destruct v; reflexivity.
Qed.

Lemma flat_map_step_flat (sep : string) (d : dict json) :
  is_flat d = true -> flat_map (flatten_step "" sep) d = d.
Proof.
  induction d as [|[k v] rest IH]; simpl; intros Hflat; [reflexivity|].
  apply andb_true_iff in Hflat as [Hv Hrest].
  rewrite (IH Hrest).
  destruct v; simpl in Hv; try discriminate; reflexivity.
Qed.

(** C9.  Flattening a flat mapping (a dict none of whose values is a
    mapping) with the default [parent_key] returns a mapping equal to the
    input, whatever the separator. *)
Theorem flatten_flat_unchanged (d : dict json) (sep : string) :
  dict_wf d -> is_flat d = true -> flatten d "" sep = d.
Proof.
  intros Hwf Hflat.
  rewrite flatten_unfold, flat_map_step_flat by assumption.
  now apply dict_of_items_nodup.
Qed.

Lemma flatten_flat_unchanged_witness :
  let d := [("price"%string, JInt 3); ("tags"%string, JList []);
            ("name"%string, JStr "btc")] in
  flatten d "" "_" = d.
Proof.
  intros d. apply (flatten_flat_unchanged d "_").
  - unfold dict_wf, d. simpl.
    repeat (constructor; [simpl; intuition discriminate|]). constructor.
  - reflexivity.
Defined.

(** ** The numeric post-filter *)

Lemma numeric_filter_In (flattened : dict json) (k : string) (v : json) :
  In (k, v) (numeric_filter flattened) <->
  In (k, v) flattened /\ v <> JNull
  /\ (isinstance_int v = true \/ isinstance_float v = true).
Proof.
  unfold numeric_filter. rewrite !filter_In. simpl.
  rewrite orb_true_iff. split.
  - intros [[Hin Hnn] Hnum]. repeat split; try assumption.
    intros ->. discriminate.
  - intros (Hin & Hnn & Hnum). repeat split; try assumption.
    destruct v; try reflexivity. now elim Hnn.
Qed.

Lemma get_asset_metrics_run (w : World) (asset : string) (log : list request) :
  get_asset_metrics w asset None log =
  (Ok (metrics_json w (metrics_request asset)), log ++ [metrics_request asset]).
Proof. reflexivity. Qed.

Lemma dict_get_set_same {V : Type} (k : string) (v : V) (d : dict V) :
  dict_get k (dict_set k v d) = Some v.
Proof.
  induction d as [|[k' v'] rest IH]; simpl.
  - now rewrite String.eqb_refl.
  - destruct (String.eqb_spec k k') as [->|Hne]; simpl.
    + now rewrite String.eqb_refl.
    + destruct (String.eqb_spec k k'); [contradiction|exact IH].
Qed.

Lemma dict_get_set_other {V : Type} (k k' : string) (v : V) (d : dict V) :
  k <> k' -> dict_get k (dict_set k' v d) = dict_get k d.
Proof.
  intros Hne. induction d as [|[k2 v2] rest IH]; simpl.
  - destruct (String.eqb_spec k k'); [contradiction|reflexivity].
  - destruct (String.eqb_spec k' k2) as [->|Hne2]; simpl.
    + destruct (String.eqb_spec k k2); [contradiction|reflexivity].
    + destruct (String.eqb_spec k k2); [reflexivity|exact IH].
Qed.

(** When every reply can be turned into a series, the loop sends one request
    per asset and binds each asset to the series of its reply. *)
Lemma metrics_loop_run (w : World) (flatten_df : bool)
  (series_of : string -> Series) (assets : list string) :
  (forall a, In a assets ->
     metrics_series flatten_df (metrics_json w (metrics_request a))
     = Ok (series_of a)) ->
  forall (D : dict Series) (log : list request),
    exists D',
      metrics_loop w flatten_df assets D log
      = (Ok D', log ++ map metrics_request assets)
      /\ (forall a, In a assets -> dict_get a D' = Some (series_of a))
      /\ (forall a, ~ In a assets -> dict_get a D' = dict_get a D).
Proof.
  induction assets as [|a rest IH]; intros Hok D log.
  - exists D. simpl. rewrite app_nil_r.
    split; [reflexivity|]. split; [now intros ? []|reflexivity].
  - simpl. unfold bind at 1. rewrite get_asset_metrics_run.
    unfold bind at 1, lift. rewrite (Hok a) by now left.
    destruct (IH (fun a' Hin => Hok a' (or_intror Hin))
                 (dict_set a (series_of a) D) (log ++ [metrics_request a]))
      as (D' & Hrun & Hin & Hout).
    exists D'. rewrite Hrun, <- app_assoc. simpl.
    split; [reflexivity|]. split.
    + intros a' [<-|Ha'].
      * destruct (in_dec string_dec a rest) as [Hr|Hr]; [now apply Hin|].
        rewrite (Hout a Hr). apply dict_get_set_same.
      * now apply Hin.
    + intros a' Hnot. rewrite Hout by (intros Hr; apply Hnot; now right).
      apply dict_get_set_other. intros ->. apply Hnot. now left.
Qed.

(** C6.  With the numeric post-filter on, an entry of the flattened record
    is kept exactly when its value is not [None] and passes
    [isinstance(v, int) or isinstance(v, float)] (for Python a [bool] is an
    [int]): nulls, strings, lists and mappings are dropped.  The record
    [{"market_data": {"price_usd": 50000, "volume": null}}] gives exactly
    [{"market_data_price_usd": 50000}], also as the column of the asset in
    the frame that [get_assets_metrics_pd] builds. *)
Theorem numeric_filter_drops_non_numbers :
  (forall (record : dict json) (k : string) (v : json),
     In (k, v) (numeric_filter (flatten record "" "_")) <->
     In (k, v) (flatten record "" "_") /\ v <> JNull
     /\ (isinstance_int v = true \/ isinstance_float v = true))
  /\ (forall (flattened : dict json) (k : string) (v : json),
        In (k, v) (numeric_filter flattened) ->
        match v with
        | JInt _ | JBool _ | JFloat _ => True
        | JNull | JStr _ | JList _ | JDict _ => False
        end)
  /\ (let record := [("market_data"%string,
                      JDict [("price_usd"%string, JInt 50000);
                             ("volume"%string, JNull)])] in
      numeric_filter (flatten record "" "_")
      = [("market_data_price_usd"%string, JInt 50000)]
      /\ fst (run (get_assets_metrics_pd
                     (sample_world [] [("btc"%string,
                                        JDict [("data"%string, JDict record)])])
                     (Some ["btc"%string]) true))
         = Ok [("btc"%string,
                [(LKey "market_data_price_usd", JInt 50000)])]).
Proof.
  split; [|split].
  - intros record k v. apply numeric_filter_In.
  - intros flattened k v Hin. apply numeric_filter_In in Hin.
    destruct Hin as (_ & Hnn & [Hi|Hf]); destruct v; simpl in *;
      try discriminate; try exact I.
  - split; reflexivity.
Qed.

(** C10.  The numeric post-filter keeps booleans.  When every reply carries
    a mapping under ["data"], [get_assets_metrics_pd] with flattening on
    returns a frame in which the column of each asset holds every
    boolean-valued entry of that asset's flattened record. *)
Theorem numeric_filter_keeps_booleans (w : World) (assets : list string)
  (record_of : string -> dict json) :
  (forall a, In a assets ->
     subscript_data (metrics_json w (metrics_request a))
     = Ok (JDict (record_of a))) ->
  exists frame,
    run (get_assets_metrics_pd w (Some assets) true)
    = (Ok frame, map metrics_request assets)
    /\ forall a k b,
         In a assets ->
         In (k, JBool b) (flatten (record_of a) "" "_") ->
         In (k, JBool b) (numeric_filter (flatten (record_of a) "" "_"))
         /\ exists column,
              dict_get a frame = Some column /\ In (LKey k, JBool b) column.
Proof.
  intros Hreply.
  destruct (metrics_loop_run w true
              (fun a => series_of_dict (numeric_filter (flatten (record_of a) "" "_")))
              assets) with (D := @nil (string * Series)) (log := @nil request)
    as (frame & Hrun & Hin & _).
  { intros a Ha. unfold metrics_series. now rewrite (Hreply a Ha). }
  exists frame. split; [exact Hrun|].
  intros a k b Ha Hflat.
  assert (Hkept : In (k, JBool b) (numeric_filter (flatten (record_of a) "" "_"))).
  { apply numeric_filter_In. repeat split; [assumption|discriminate|now left]. }
  split; [exact Hkept|].
  eexists. split; [apply (Hin a Ha)|].
  unfold series_of_dict.
  exact (in_map (fun kv => (LKey (fst kv), snd kv)) _ _ Hkept).
Qed.

Lemma numeric_filter_keeps_booleans_witness :
  let w := sample_world []
             [("btc"%string,
               JDict [("data"%string,
                       JDict [("flags"%string,
                               JDict [("listed"%string, JBool true)]);
                              ("name"%string, JStr "Bitcoin")])])] in
  exists frame,
    run (get_assets_metrics_pd w (Some ["btc"%string]) true)
    = (Ok frame, map metrics_request ["btc"%string])
    /\ forall a k b,
         In a ["btc"%string] ->
         In (k, JBool b)
            (flatten [("flags"%string, JDict [("listed"%string, JBool true)]);
                      ("name"%string, JStr "Bitcoin")] "" "_") ->
         In (k, JBool b)
            (numeric_filter
               (flatten [("flags"%string, JDict [("listed"%string, JBool true)]);
                         ("name"%string, JStr "Bitcoin")] "" "_"))
         /\ exists column,
              dict_get a frame = Some column /\ In (LKey k, JBool b) column.
Proof.
  intros w.
  apply (numeric_filter_keeps_booleans w ["btc"%string]
           (fun _ => [("flags"%string, JDict [("listed"%string, JBool true)]);
                      ("name"%string, JStr "Bitcoin")])).
  intros a [<-|[]]. reflexivity.
Defined.

(** ** Input validation and the requests sent *)

Lemma or_default_supplied (s dflt : string) :
  truthy s = true -> or_default (Some s) dflt = s.
Proof. intros Hs. unfold or_default. now rewrite Hs. Qed.

(** With dates that pass [valid_date], the fetch sends exactly one request
    and returns what the server holds for it. *)
Lemma get_asset_price_history_run (w : World) (asset : string)
  (start_date end_date : option string) (columns interval : string)
  (log : list request) :
  valid_date (or_default start_date (year_ago w)) = true ->
  valid_date (or_default end_date (today w)) = true ->
  let r := price_request asset columns interval
             (or_default start_date (year_ago w))
             (or_default end_date (today w)) in
  get_asset_price_history w asset start_date end_date columns interval log
  = (Ok (timeseries_values w r), log ++ [r]).
Proof.
  intros Hs He r. unfold get_asset_price_history, bind, py_assert.
  rewrite Hs, He. reflexivity.
Qed.

(** A date that fails [valid_date] stops the fetch at its [assert]. *)
Lemma get_asset_price_history_invalid (w : World) (asset : string)
  (start_date end_date : option string) (columns interval : string)
  (log : list request) :
  valid_date (or_default start_date (year_ago w)) = false
  \/ valid_date (or_default end_date (today w)) = false ->
  get_asset_price_history w asset start_date end_date columns interval log
  = (Raise AssertionError, log).
Proof.
  intros H. unfold get_asset_price_history, bind, py_assert.
  destruct (valid_date (or_default start_date (year_ago w))); [|reflexivity].
  destruct H as [H|H]; [discriminate|]. now rewrite H.
Qed.

Lemma map_py_fetch_run (w : World) (start_date end_date : option string)
  (columns interval : string) (assets : list string) :
  valid_date (or_default start_date (year_ago w)) = true ->
  valid_date (or_default end_date (today w)) = true ->
  let req a := price_request a columns interval
                 (or_default start_date (year_ago w))
                 (or_default end_date (today w)) in
  forall log,
    map_py (fun key => get_asset_price_history w key start_date end_date
                                               columns interval) assets log
    = (Ok (map (fun a => timeseries_values w (req a)) assets),
       log ++ map req assets).
Proof.
  intros Hs He req.
  induction assets as [|a rest IH]; intros log; simpl.
  - unfold ret. now rewrite app_nil_r.
  - unfold bind at 1. rewrite get_asset_price_history_run by assumption.
    unfold bind at 1. rewrite IH. unfold ret. now rewrite <- app_assoc.
Qed.

(** C5, as the module behaves.  A start or end date that is a non-empty
    string and fails [valid_date] makes [get_asset_price_history] raise
    [AssertionError] before it sends anything, and so does
    [get_assets_price_history_pd] on a non-empty asset list. *)
Theorem invalid_date_raises_before_request (w : World) (asset : string)
  (start_date end_date : option string) (columns interval : string)
  (log : list request) :
  (exists s, start_date = Some s /\ truthy s = true /\ valid_date s = false)
  \/ (exists s, end_date = Some s /\ truthy s = true /\ valid_date s = false) ->
  get_asset_price_history w asset start_date end_date columns interval log
  = (Raise AssertionError, log)
  /\ forall rest,
       get_assets_price_history_pd w (asset :: rest) start_date end_date
                                   columns interval log
       = (Raise AssertionError, log).
Proof.
  intros H.
  assert (Hbad : valid_date (or_default start_date (year_ago w)) = false
                 \/ valid_date (or_default end_date (today w)) = false).
  { destruct H as [(s & -> & Ht & Hv)|(s & -> & Ht & Hv)];
      [left|right]; now rewrite or_default_supplied. }
  split.
  - now apply get_asset_price_history_invalid.
  - intros rest. unfold get_assets_price_history_pd. simpl.
    unfold bind at 1. unfold bind at 1.
    now rewrite get_asset_price_history_invalid.
Qed.

Lemma invalid_date_raises_before_request_witness :
  get_asset_price_history (sample_world [] []) "btc"
    (Some "2021-13-40"%string) None "close" "1d" []
  = (Raise AssertionError, [])
  /\ forall rest,
       get_assets_price_history_pd (sample_world [] []) ("btc"%string :: rest)
         (Some "2021-13-40"%string) None "close" "1d" []
       = (Raise AssertionError, []).
Proof.
  apply (invalid_date_raises_before_request (sample_world [] []) "btc"
           (Some "2021-13-40"%string) None "close" "1d" []).
  left. exists "2021-13-40"%string. repeat split; reflexivity.
Defined.

(** C5, as stated, fails on the empty string: it does not parse as a date,
    yet the fetch replaces it by the default start date, sends its request
    and returns.  Where the fetch does stop on a bad date, the exception is
    the [AssertionError] of an [assert], not an [InvalidDateError]. *)
Lemma empty_date_string_is_defaulted :
  valid_date "" = false
  /\ run (get_asset_price_history
            (sample_world [("btc"%string, [(0%Z, int_value 10)])] []) "btc"
            (Some ""%string) (Some "2021-02-01"%string) "close" "1d")
     = (Ok [(0%Z, int_value 10)],
        [price_request "btc" "close" "1d" "2020-06-15" "2021-02-01"])
  /\ fst (run (get_asset_price_history (sample_world [] []) "btc"
                (Some "2021-13-40"%string) None "close" "1d"))
     = Raise AssertionError
  /\ exn_name AssertionError <> "InvalidDateError"%string.
Proof.
  split; [reflexivity|]. split; [reflexivity|]. split; [reflexivity|].
  discriminate.
Qed.

(** ** The aligner *)

Lemma In_dict_set {V : Type} (k k' : string) (v v' : V) (d : dict V) :
  In (k, v) (dict_set k' v' d) -> (k = k' /\ v = v') \/ In (k, v) d.
Proof.
  induction d as [|[k2 v2] rest IH]; simpl.
  - intros [H|[]]. injection H as <- <-. now left.
  - destruct (String.eqb_spec k' k2) as [->|Hne]; simpl.
    + intros [H|H]; [injection H as <- <-; now left | right; now right].
    + intros [H|H]; [right; now left|].
      destruct (IH H) as [?|?]; [now left | right; now right].
Qed.

Lemma dict_get_In {V : Type} (k : string) (v : V) (d : dict V) :
  dict_get k d = Some v -> In (k, v) d.
Proof.
  induction d as [|[k' v'] rest IH]; simpl; [discriminate|].
  destruct (String.eqb_spec k k') as [->|_].
  - intros H. injection H as ->. now left.
  - intros H. right. now apply IH.
Qed.

Section Merge_singletons.
Context {V : Type} (g : string -> V).

Local Abbreviation singles assets := (map (fun a => [(a, g a)]) assets).

Lemma merge_acc_In (assets : list string) : forall (acc : dict V) k v,
  In (k, v) (fold_left (@dict_update V) (singles assets) acc) ->
  In (k, v) acc \/ (In k assets /\ v = g k).
Proof.
  induction assets as [|a rest IH]; simpl; intros acc k v Hin; [now left|].
  apply IH in Hin. destruct Hin as [Hin|[Hin ->]].
  - unfold dict_update in Hin. simpl in Hin.
    apply In_dict_set in Hin. destruct Hin as [[-> ->]|Hin];
      [right; split; [now left|reflexivity] | now left].
  - right. split; [now right|reflexivity].
Qed.

Lemma merge_acc_get_other (assets : list string) : forall (acc : dict V) a,
  ~ In a assets ->
  dict_get a (fold_left (@dict_update V) (singles assets) acc) = dict_get a acc.
Proof.
  induction assets as [|x rest IH]; simpl; intros acc a Hnot; [reflexivity|].
  rewrite IH by (intros H; apply Hnot; now right).
  unfold dict_update. simpl. apply dict_get_set_other.
  intros ->. apply Hnot. now left.
Qed.

Lemma merge_acc_get (assets : list string) : forall (acc : dict V) a,
  In a assets ->
  dict_get a (fold_left (@dict_update V) (singles assets) acc) = Some (g a).
Proof.
  induction assets as [|x rest IH]; simpl; intros acc a Hin; [contradiction|].
  destruct (in_dec string_dec a rest) as [Hr|Hr]; [now apply IH|].
  destruct Hin as [->|Hin]; [|contradiction].
  rewrite merge_acc_get_other by assumption.
  unfold dict_update. simpl. apply dict_get_set_same.
Qed.

Lemma merge_singletons_In (assets : list string) k v :
  In (k, v) (merge_dicts (singles assets)) -> In k assets /\ v = g k.
Proof.
  intros Hin. apply merge_acc_In in Hin. destruct Hin as [[]|H]. exact H.
Qed.

Lemma merge_singletons_get (assets : list string) a :
  In a assets -> dict_get a (merge_dicts (singles assets)) = Some (g a).
Proof. apply merge_acc_get. Qed.

End Merge_singletons.

Lemma fold_max_bounds (rest : list nat) : forall x,
  x <= fold_left Nat.max rest x
  /\ (forall y, In y rest -> y <= fold_left Nat.max rest x)
  /\ In (fold_left Nat.max rest x) (x :: rest).
Proof.
  induction rest as [|z rest IH]; simpl; intros x.
  - repeat split; [lia | now intros ? [] | now left].
  - destruct (IH (Nat.max x z)) as (Hge & Hall & Hin). repeat split.
    + lia.
    + intros y [<-|Hy]; [lia | now apply Hall].
    + destruct Hin as [Hin|Hin]; [|right; now right].
      rewrite <- Hin.
      destruct (Nat.max_spec x z) as [[_ ->]|[_ ->]];
        [right; now left | now left].
Qed.

Lemma py_max_spec (l : list nat) :
  l <> [] ->
  exists M, py_max l = Ok M /\ (forall x, In x l -> x <= M) /\ In M l.
Proof.
  destruct l as [|x rest]; [congruence|]. intros _.
  destruct (fold_max_bounds rest x) as (Hge & Hall & Hin).
  exists (fold_left Nat.max rest x). simpl. repeat split; [|exact Hin].
  intros y [<-|Hy]; [exact Hge | now apply Hall].
Qed.

Lemma all_eq_true_iff (l : list nat) :
  all_eq l = true <-> (forall x y, In x l -> In y l -> x = y).
Proof.
  unfold all_eq. rewrite Nat.leb_le. split.
  - intros Hlen x y Hx Hy.
    apply (nodup_In Nat.eq_dec) in Hx, Hy.
    destruct (nodup Nat.eq_dec l) as [|a [|b t]]; simpl in *;
      [contradiction | | lia].
    destruct Hx as [<-|[]], Hy as [<-|[]]. reflexivity.
  - intros Heq.
    pose proof (NoDup_nodup Nat.eq_dec l) as Hnd.
    assert (Hsub : forall x, In x (nodup Nat.eq_dec l) -> In x l)
      by (intros x; apply nodup_In).
    destruct (nodup Nat.eq_dec l) as [|a [|b t]]; simpl; [lia | lia |].
    exfalso. inversion Hnd as [|? ? Hnot _]; subst. apply Hnot.
    left. apply Heq; apply Hsub; simpl; auto.
Qed.




Lemma np_asarray_length (series : list point) :
  List.length (np_asarray series) = List.length series.
Proof.
  unfold np_asarray. destruct (has_float series); [apply length_map|reflexivity].
Qed.

Lemma np_asarray_times (series : list point) :
  map fst (np_asarray series) = map fst series.
Proof.
  unfold np_asarray. destruct (has_float series); [|reflexivity].
  rewrite map_map. reflexivity.
Qed.


Lemma array_values_length (series : list point) :
  List.length (array_values series) = List.length series.
Proof.
  unfold array_values, value_column.
  now rewrite length_map, np_asarray_length.
Qed.


Lemma np_concatenate_length (zeros v : list number) :
  List.length (np_concatenate zeros v) = List.length zeros + List.length v.
Proof. unfold np_concatenate. now rewrite length_app, length_map. Qed.

Lemma dict_get_pad_columns (M : nat) (a : string) (D : dict (list number)) :
  dict_get a (pad_columns M D)
  = option_map (fun v => np_concatenate (np_zeros (M - List.length v)) v)
               (dict_get a D).
Proof.
  induction D as [|[k v] rest IH]; simpl; [reflexivity|].
  destruct (String.eqb a k); [reflexivity | exact IH].
Qed.

Lemma pd_DataFrame_Ok (data : dict (list number)) (index : list string) (T : DataFrame) :
  pd_DataFrame data index = Ok T ->
  T = mk_DataFrame index data
  /\ forall k col, In (k, col) data -> List.length col = List.length index.
Proof.
  unfold pd_DataFrame.
  destruct (forallb _ data) eqn:Hall; [|discriminate].
  intros H. injection H as <-. split; [reflexivity|].
  intros k col Hin. rewrite forallb_forall in Hall.
  apply Nat.eqb_eq. exact (Hall (k, col) Hin).
Qed.


Lemma pd_DataFrame_misfit (data : dict (list number)) (index : list string) k col :
  In (k, col) data -> List.length col <> List.length index ->
  pd_DataFrame data index = Raise ValueError.
Proof.
  intros Hin Hne. unfold pd_DataFrame.
  destruct (forallb _ data) eqn:Hall; [|reflexivity].
  rewrite forallb_forall in Hall. specialize (Hall (k, col) Hin).
  apply Nat.eqb_eq in Hall. contradiction.
Qed.

Section Align_facts.
Variable w : World.
Variable f : string -> list point.

Local Abbreviation prep := prep_entry.

Lemma prep_data_ok (assets : list string) :
  (forall a, In a assets -> f a <> []) ->
  map_result prep (combine assets (map f assets))
  = Ok (map (fun a => [(a, array_values (f a))]) assets).
Proof.
  induction assets as [|a rest IH]; simpl; intros Hne; [reflexivity|].
  rewrite IH by (intros a' Ha'; apply Hne; now right).
  unfold prep_entry at 1. simpl.
  destruct (f a) eqn:Hfa; [now elim (Hne a (or_introl eq_refl))|reflexivity].
Qed.

Lemma prep_data_fail (assets : list string) (a : string) :
  In a assets -> f a = [] ->
  map_result prep (combine assets (map f assets)) = Raise IndexError.
Proof.
  induction assets as [|x rest IH]; simpl; intros Hin Hfa; [contradiction|].
  unfold prep_entry at 1. simpl.
  destruct (f x) eqn:Hfx; [reflexivity|]. simpl.
  destruct Hin as [->|Hin]; [congruence|].
  now rewrite IH.
Qed.

(** A series of length 0 anywhere stops the aligner with [IndexError]. *)
Lemma align_empty_series (assets : list string) (a : string) :
  In a assets -> f a = [] ->
  align w assets (map f assets) = Raise IndexError.
Proof.
  intros Hin Hfa. unfold align.
  destruct assets as [|a0 rest]; [contradiction|].
  replace (first_item (map f (a0 :: rest))) with (Ok (f a0)) by reflexivity.
  unfold rbind at 1.
  destruct (np_column fst (f a0)) as [time|e] eqn:Htime.
  - unfold rbind at 1. 
    now rewrite (prep_data_fail (a0 :: rest) a).
  - destruct (f a0); simpl in Htime; [|discriminate].
    injection Htime as <-. reflexivity.
Qed.

(** What the aligner computes from non-empty series: the merged value
    columns [D], the largest length [M], and the frame built from them. *)
Lemma align_nonempty (a0 : string) (rest : list string) :
  let assets := a0 :: rest in
  (forall a, In a assets -> f a <> []) ->
  exists (D : dict (list number)) (M : nat),
    (forall a, In a assets -> dict_get a D = Some (array_values (f a)))
    /\ (forall k col, In (k, col) D -> In k assets /\ col = array_values (f k))
    /\ (forall a, In a assets -> List.length (f a) <= M)
    /\ (exists a, In a assets /\ List.length (f a) = M)
    /\ (all_eq (map (@List.length number) (values D)) = true
        <-> forall a b, In a assets -> In b assets ->
              List.length (f a) = List.length (f b))
    /\ align w assets (map f assets)
       = pd_DataFrame
           (if negb (all_eq (map (@List.length number) (values D)))
            then pad_columns M D else D)
           (date_column w (f a0)).
Proof.
  intros assets Hne.
  set (D := merge_dicts (map (fun a => [(a, array_values (f a))]) assets)).
  assert (HgetD : forall a, In a assets ->
                    dict_get a D = Some (array_values (f a)))
    by (intros a Ha; apply (merge_singletons_get (fun a => array_values (f a))); exact Ha).
  assert (HinD : forall k col, In (k, col) D ->
                   In k assets /\ col = array_values (f k))
    by (intros k col Hin;
        apply (merge_singletons_In (fun a => array_values (f a))) in Hin; exact Hin).
  assert (Hlens : forall n, In n (map (@List.length number) (values D)) <->
                    exists a, In a assets /\ n = List.length (f a)).
  { intros n. unfold values. rewrite map_map, in_map_iff. split.
    - intros ([k col] & <- & Hin). simpl.
      destruct (HinD k col Hin) as [Hk ->]. exists k. split; [exact Hk|].
      apply array_values_length.
    - intros (a & Ha & ->). exists (a, array_values (f a)). split.
      + simpl. apply array_values_length.
      + apply dict_get_In. now apply HgetD. }
  destruct (py_max_spec (map (@List.length number) (values D)))
    as (M & HM & Hle & HinM).
  { intros Hnil.
    assert (Hin : In (List.length (f a0)) (map (@List.length number) (values D)))
      by (apply Hlens; exists a0; split; [now left|reflexivity]).
    rewrite Hnil in Hin. exact Hin. }
  exists D, M. repeat split.
  - exact HgetD.
  - now apply (HinD k col).
  - now apply (HinD k col).
  - intros a Ha. apply Hle, Hlens. now exists a.
  - apply Hlens in HinM. destruct HinM as (a & Ha & ->). now exists a.
  - intros Heq a b Ha Hb. rewrite all_eq_true_iff in Heq.
    apply Heq; apply Hlens; [now exists a | now exists b].
  - intros Heq. apply all_eq_true_iff. intros x y Hx Hy.
    apply Hlens in Hx, Hy.
    destruct Hx as (a & Ha & ->), Hy as (b & Hb & ->). now apply Heq.
  - unfold align.
    replace (first_item (map f assets)) with (Ok (f a0)) by reflexivity.
    unfold rbind at 1.
    replace (np_column fst (f a0)) with (Ok (map fst (f a0)))
      by (specialize (Hne a0 (or_introl eq_refl)); destruct (f a0) as [|p l];
          [congruence | simpl; now rewrite np_asarray_times]).
    unfold rbind at 1.  rewrite (prep_data_ok assets Hne).
    unfold rbind at 1. fold D. rewrite HM. reflexivity.
Qed.

End Align_facts.

Section Price_table_facts.
Variable w : World.
Variables start_date end_date : option string.
Variables columns interval : string.

Local Abbreviation series := (fetched w start_date end_date columns interval).
Local Abbreviation req :=
  (fun a => price_request a columns interval
              (settled_start w start_date) (settled_end w end_date)).
Local Abbreviation table assets :=
  (get_assets_price_history_pd w assets start_date end_date columns interval).
Local Abbreviation dates_ok :=
  (valid_date (settled_start w start_date)
   && valid_date (settled_end w end_date)).

(** The three ways a call can go before the aligner is reached. *)
Lemma price_table_cases (assets : list string) (log : list request) :
  table assets log
  = match assets with
    | [] => (Raise IndexError, log)
    | _ :: _ =>
        if dates_ok
        then (align w assets (map series assets), log ++ map req assets)
        else (Raise AssertionError, log)
    end.
Proof.
  destruct assets as [|a0 rest]; [reflexivity|].
  unfold table, get_assets_price_history_pd, dates_ok.
  destruct (valid_date (settled_start w start_date)) eqn:Hs;
    [destruct (valid_date (settled_end w end_date)) eqn:He|]; simpl andb.
  - unfold bind at 1.
    rewrite (map_py_fetch_run w start_date end_date columns interval
               (a0 :: rest) Hs He).
    reflexivity.
  - simpl map_py. unfold bind at 1. unfold bind at 1.
    rewrite get_asset_price_history_invalid by (right; exact He).
    reflexivity.
  - simpl map_py. unfold bind at 1. unfold bind at 1.
    rewrite get_asset_price_history_invalid by (left; exact Hs).
    reflexivity.
Qed.

Lemma series_empty_or_not (assets : list string) :
  (exists a, In a assets /\ series a = [])
  \/ (forall a, In a assets -> series a <> []).
Proof.
  induction assets as [|x rest [(a & Ha & He)|IH]].
  - right. now intros ? [].
  - left. exists a. split; [now right|exact He].
  - destruct (series x) eqn:Hx.
    + left. exists x. split; [now left|exact Hx].
    + right. intros a [<-|Ha]; [now rewrite Hx | now apply IH].
Qed.

(** Every table that is returned has one row per point of the longest
    series.  When all series have the same length the column of each asset
    is the values of its array; otherwise every column is a [float64] array,
    the values behind as many zeros as the series is short of the row
    count. *)
Lemma price_table_columns (assets : list string) (log log' : list request)
  (T : DataFrame) :
  table assets log = (Ok T, log') ->
  log' = log ++ map req assets
  /\ df_index T = date_column w (series (hd ""%string assets))
  /\ (forall a, In a assets -> List.length (series a) <= List.length (df_index T))
  /\ (exists a, In a assets /\ List.length (series a) = List.length (df_index T))
  /\ exists same : bool,
       (same = true <->
        forall a b, In a assets -> In b assets ->
          List.length (series a) = List.length (series b))
       /\ (forall k col, In (k, col) (df_columns T) ->
             In k assets
             /\ col = table_column same (List.length (df_index T)) (series k))
       /\ (forall a, In a assets ->
             dict_get a (df_columns T)
             = Some (table_column same (List.length (df_index T)) (series a))).
Proof.
  rewrite price_table_cases.
  destruct assets as [|a0 rest]; [discriminate|].
  destruct dates_ok; [|discriminate].
  intros Hrun.
  assert (Halign : align w (a0 :: rest) (map series (a0 :: rest)) = Ok T)
    by congruence.
  assert (Hlog : log' = log ++ map req (a0 :: rest)) by congruence.
  clear Hrun. subst log'.
  destruct (series_empty_or_not (a0 :: rest)) as [(a & Ha & He)|Hne].
  { rewrite (align_empty_series w series (a0 :: rest) a Ha He) in Halign.
    discriminate. }
  destruct (align_nonempty w series a0 rest Hne)
    as (D & M & HgetD & HinD & HleM & (am & Ham & HamM) & Halleq & Heq).
  rewrite Heq in Halign. apply pd_DataFrame_Ok in Halign.
  destruct Halign as [-> Hfit]. simpl df_index. simpl df_columns.
  simpl hd. simpl hd in Hfit.
  destruct (all_eq (map (@List.length number) (values D))) eqn:Hall; simpl negb in *;
    cbv iota in *.
  - (* equal lengths: the columns are used as they are *)
    assert (Hrows : forall a, In a (a0 :: rest) ->
              List.length (series a) = List.length (date_column w (series a0))).
    { intros a Ha. rewrite <- (array_values_length (series a)).
      apply (Hfit a). apply dict_get_In. now apply HgetD. }
    split; [reflexivity|]. split; [reflexivity|]. split; [|split].
    + intros a Ha. rewrite (Hrows a Ha). lia.
    + exists a0. split; [now left | apply Hrows; now left].
    + exists true. split; [|split].
      * split; [intros _; now apply Halleq | reflexivity].
      * intros k col Hin. exact (HinD k col Hin).
      * exact HgetD.
  - (* unequal lengths: every column is padded up to [M] *)
    assert (Hpad : forall a, In a (a0 :: rest) ->
              dict_get a (pad_columns M D)
              = Some (table_column false M (series a))).
    { intros a Ha. rewrite dict_get_pad_columns, (HgetD a Ha). simpl.
      unfold table_column. now rewrite array_values_length. }
    assert (HM : M = List.length (date_column w (series a0))).
    { pose proof (Hpad a0 (or_introl eq_refl)) as H0.
      apply dict_get_In, Hfit in H0. unfold table_column in H0.
      rewrite np_concatenate_length in H0.
      unfold np_zeros in H0. rewrite repeat_length, array_values_length in H0.
      pose proof (HleM a0 (or_introl eq_refl)). lia. }
    rewrite <- HM.
    split; [reflexivity|]. split; [reflexivity|]. split; [|split].
    + exact HleM.
    + now exists am.
    + exists false. split; [|split].
      * split; [discriminate|]. intros Hsame.
        apply Halleq in Hsame. discriminate Hsame.
      * intros k col Hin.
        unfold pad_columns in Hin. apply in_map_iff in Hin.
        destruct Hin as ([k' v] & Hkv & Hin). injection Hkv as <- <-.
        simpl. destruct (HinD k' v Hin) as [Hk ->].
        split; [exact Hk|]. unfold table_column.
        now rewrite array_values_length.
      * exact Hpad.
Qed.

(** Every column of a returned table has one value per row. *)
Lemma price_table_column_length (assets : list string) (log log' : list request)
  (T : DataFrame) (k : string) (col : list number) :
  table assets log = (Ok T, log') ->
  In (k, col) (df_columns T) ->
  In k assets /\ List.length col = List.length (df_index T).
Proof.
  intros Hrun Hin.
  destruct (price_table_columns assets log log' T Hrun)
    as (_ & _ & Hle & (am & Ham & Hrows) & same & Hsame & Hcols & _).
  destruct (Hcols k col Hin) as [Hk ->]. split; [exact Hk|].
  unfold table_column. destruct same.
  - rewrite array_values_length, <- Hrows.
    apply (proj1 Hsame eq_refl); assumption.
  - rewrite np_concatenate_length. unfold np_zeros.
    rewrite repeat_length, array_values_length.
    apply Nat.sub_add. now apply Hle.
Qed.


(** When some series is longer than the first asset's, the frame cannot be
    built: the columns have the largest length, the index has the first
    asset's, and [pd.DataFrame] raises [ValueError]. *)
Lemma price_table_first_shorter (a0 : string) (rest : list string)
  (log : list request) (a : string) :
  dates_ok = true ->
  (forall a, In a (a0 :: rest) -> 1 <= List.length (series a)) ->
  In a (a0 :: rest) -> List.length (series a0) < List.length (series a) ->
  table (a0 :: rest) log = (Raise ValueError, log ++ map req (a0 :: rest)).
Proof.
  intros Hdates Hlen Ha Hlonger.
  rewrite price_table_cases, Hdates.
  assert (Hne : forall a, In a (a0 :: rest) -> series a <> []).
  { intros b Hb He. specialize (Hlen b Hb). rewrite He in Hlen. simpl in Hlen. lia. }
  destruct (align_nonempty w series a0 rest Hne)
    as (D & M & HgetD & HinD & HleM & _ & Halleq & Heq).
  rewrite Heq.
  destruct (all_eq (map (@List.length number) (values D))) eqn:Hall.
  - destruct Halleq as [Hall_eq _].
    specialize (Hall_eq eq_refl a a0 Ha (or_introl eq_refl)). lia.
  - simpl negb. cbv iota.
    rewrite (pd_DataFrame_misfit (pad_columns M D) (date_column w (series a0)) a0
               (table_column false M (series a0)));
      [reflexivity| |].
    + apply dict_get_In. rewrite dict_get_pad_columns, (HgetD a0 (or_introl eq_refl)).
      simpl. unfold table_column. now rewrite array_values_length.
    + unfold table_column, date_column.
      rewrite np_concatenate_length. unfold np_zeros.
      rewrite repeat_length, array_values_length, !length_map.
      pose proof (HleM a Ha). unfold point in *. lia.
Qed.

End Price_table_facts.

(** C3, as the module behaves.  With an empty asset list
    [get_assets_price_history_pd] raises the builtin [IndexError] (from
    [asset_data[0]]) and sends no request: the log of requests is the one
    it started with.  The same [IndexError] is what a non-empty list whose
    first series is empty ends in, this time after every request has been
    sent. *)
Theorem empty_asset_list_raises_IndexError :
  (forall (w : World) (start_date end_date : option string)
          (columns interval : string) (log : list request),
     get_assets_price_history_pd w [] start_date end_date columns interval log
     = (Raise IndexError, log))
  /\ (forall (w : World) (start_date end_date : option string)
             (columns interval : string) (first : string) (rest : list string)
             (log : list request),
        valid_date (settled_start w start_date) = true ->
        valid_date (settled_end w end_date) = true ->
        fetched w start_date end_date columns interval first = [] ->
        get_assets_price_history_pd w (first :: rest) start_date end_date
                                    columns interval log
        = (Raise IndexError,
           log ++ map (fun a => price_request a columns interval
                                  (settled_start w start_date)
                                  (settled_end w end_date)) (first :: rest))).
Proof.
  split.
  - intros w start_date end_date columns interval log.
    now rewrite price_table_cases.
  - intros w start_date end_date columns interval first rest log Hs He Hempty.
    rewrite price_table_cases, Hs, He. simpl andb. cbv iota.
    now rewrite (align_empty_series w _ (first :: rest) first (or_introl eq_refl) Hempty).
Qed.

(** C3, as stated, fails: the exception raised on an empty asset list is
    not of a class named [EmptyInputError]. *)
Lemma empty_asset_list_not_EmptyInputError :
  ~ exists e,
      fst (run (get_assets_price_history_pd (sample_world [] []) []
                  (Some "2021-01-01"%string) (Some "2021-02-01"%string)
                  "close" "1d"))
      = Raise e
      /\ exn_name e = "EmptyInputError"%string.
Proof.
  intros (e & Hrun & Hname). simpl in Hrun.
  injection Hrun as <-. discriminate Hname.
Qed.






(** C1, where the longest series is not the first asset's.  With the
    assets of the scenario exchanged (A has one point, B has two), no table
    with two rows comes out: both requests are sent, the columns are padded
    to length 2, the index keeps the single date of A, and [pd.DataFrame]
    raises [ValueError].  The same happens whenever the dates are valid,
    every series has at least one point and some series is longer than the
    first asset's. *)
Theorem longest_series_not_first_raises :
  (List.length (fetched world_A_shorter (Some "2021-01-01"%string)
                        (Some "2021-02-01"%string) "close" "1d" "A") = 1
   /\ List.length (fetched world_A_shorter (Some "2021-01-01"%string)
                           (Some "2021-02-01"%string) "close" "1d" "B") = 2
   /\ run (get_assets_price_history_pd world_A_shorter ["A"%string; "B"%string]
             (Some "2021-01-01"%string) (Some "2021-02-01"%string) "close" "1d")
      = (Raise ValueError,
         [price_request "A" "close" "1d" "2021-01-01" "2021-02-01";
          price_request "B" "close" "1d" "2021-01-01" "2021-02-01"]))
  /\ (forall (w : World) (start_date end_date : option string)
             (columns interval : string) (first : string) (rest : list string)
             (log : list request) (a : string),
        valid_date (settled_start w start_date) = true ->
        valid_date (settled_end w end_date) = true ->
        (forall a', In a' (first :: rest) ->
           1 <= List.length (fetched w start_date end_date columns interval a')) ->
        In a (first :: rest) ->
        List.length (fetched w start_date end_date columns interval first)
        < List.length (fetched w start_date end_date columns interval a) ->
        get_assets_price_history_pd w (first :: rest) start_date end_date
                                    columns interval log
        = (Raise ValueError,
           log ++ map (fun a => price_request a columns interval
                                  (settled_start w start_date)
                                  (settled_end w end_date)) (first :: rest))).
Proof.
  split; [repeat split|].
  intros w start_date end_date columns interval first rest log a Hs He Hlen Ha Hlt.
  apply (price_table_first_shorter w start_date end_date columns interval
           first rest log a); try assumption.
  now rewrite Hs, He.
Qed.

(** ** Nested mappings *)

Lemma leaf_paths_cons (k : string) (v : json) (rest : dict json) :
  leaf_paths (JDict ((k, v) :: rest))
  = (match v with
     | JDict _ => map (fun pv => (k :: fst pv, snd pv)) (leaf_paths v)
     | _ => [([k], v)]
     end) ++ leaf_paths (JDict rest).
Proof. reflexivity. Qed.

Lemma leaf_items_cons (sep : string) (k : string) (v : json) (rest : dict json)
  (parent_key : string) :
  leaf_items sep ((k, v) :: rest) parent_key
  = (match v with
     | JDict d' => leaf_items sep d' (new_key parent_key sep k)
     | _ => [(new_key parent_key sep k, v)]
     end) ++ leaf_items sep rest parent_key.
Proof.
  unfold leaf_items. rewrite leaf_paths_cons, map_app. f_equal.
  destruct v; try reflexivity.
  rewrite map_map. reflexivity.
Qed.

Lemma dict_get_app {V : Type} (k : string) (l1 l2 : dict V) :
  dict_get k (l1 ++ l2)
  = match dict_get k l1 with
    | Some v => Some v
    | None => dict_get k l2
    end.
Proof.
  induction l1 as [|[k' v'] rest IH]; simpl; [reflexivity|].
  destruct (String.eqb k k'); [reflexivity | exact IH].
Qed.

Lemma dict_get_None {V : Type} (k : string) (d : dict V) :
  ~ In k (keys d) -> dict_get k d = None.
Proof.
  induction d as [|[k' v'] rest IH]; simpl; intros Hk; [reflexivity|].
  destruct (String.eqb_spec k k') as [->|_].
  - exfalso. apply Hk. now left.
  - apply IH. intros Hin. apply Hk. now right.
Qed.

Lemma dict_get_Some_key {V : Type} (k : string) (d : dict V) :
  In k (keys d) -> exists v, dict_get k d = Some v.
Proof.
  induction d as [|[k' v'] rest IH]; simpl; intros Hk; [contradiction|].
  destruct (String.eqb_spec k k') as [->|Hne]; [now exists v'|].
  destruct Hk as [Hk|Hk]; [congruence | now apply IH].
Qed.

Lemma keys_dict_set_present {V : Type} (k : string) (v : V) (d : dict V) :
  In k (keys d) -> keys (dict_set k v d) = keys d.
Proof.
  induction d as [|[k' v'] rest IH]; simpl; intros Hin; [contradiction|].
  destruct (String.eqb_spec k k') as [->|Hne]; simpl; [reflexivity|].
  f_equal. apply IH. destruct Hin as [Heq|Hin]; [congruence|exact Hin].
Qed.

Lemma dict_set_wf {V : Type} (k : string) (v : V) (d : dict V) :
  dict_wf d -> dict_wf (dict_set k v d).
Proof.
  unfold dict_wf. intros Hnd.
  destruct (in_dec string_dec k (keys d)) as [Hin|Hnot].
  - now rewrite keys_dict_set_present.
  - rewrite dict_set_fresh by assumption.
    unfold keys. rewrite map_app. simpl.
    apply NoDup_Add with (a := k) (l := map fst d).
    + rewrite <- (app_nil_r (map fst d)) at 1. apply Add_app.
    + split; assumption.
Qed.

(** [dict(items)] always is a dict. *)
Lemma dict_update_wf {V : Type} (items : list (string * V)) : forall acc,
  dict_wf acc -> dict_wf (dict_update acc items).
Proof.
  unfold dict_update.
  induction items as [|[k v] rest IH]; simpl; intros acc Hwf; [exact Hwf|].
  apply IH. now apply dict_set_wf.
Qed.

(** In [dict(items)] the last item with a given key is the one that counts. *)
Lemma dict_get_update {V : Type} (items : list (string * V)) : forall acc k,
  dict_get k (dict_update acc items)
  = match dict_get k (rev items) with
    | Some v => Some v
    | None => dict_get k acc
    end.
Proof.
  unfold dict_update.
  induction items as [|[k' v'] rest IH]; simpl; intros acc k; [reflexivity|].
  rewrite IH, dict_get_app. simpl.
  destruct (dict_get k (rev rest)); [reflexivity|].
  destruct (String.eqb_spec k k') as [->|Hne].
  - apply dict_get_set_same.
  - now apply dict_get_set_other.
Qed.

Lemma dict_get_rev {V : Type} (k : string) (d : dict V) :
  dict_wf d -> dict_get k (rev d) = dict_get k d.
Proof.
  unfold dict_wf.
  induction d as [|[k' v'] rest IH]; simpl; intros Hnd; [reflexivity|].
  inversion Hnd as [|? ? Hnot Hnd']; subst.
  rewrite dict_get_app, (IH Hnd'). simpl.
  destruct (String.eqb_spec k k') as [->|_].
  - now rewrite (dict_get_None k' rest Hnot).
  - now destruct (dict_get k rest).
Qed.

Lemma flatten_wf (d : dict json) (parent_key sep : string) :
  dict_wf (flatten d parent_key sep).
Proof.
  rewrite flatten_unfold. apply dict_update_wf. constructor.
Qed.

Lemma dict_get_of_items {V : Type} (k : string) (items : list (string * V)) :
  dict_get k (dict_of_items items) = dict_get k (rev items).
Proof.
  unfold dict_of_items. rewrite dict_get_update. simpl.
  now destruct (dict_get k (rev items)).
Qed.

Lemma flatten_steps_get (sep : string) (d : dict json) : forall parent_key k,
  dict_get k (rev (flat_map (flatten_step parent_key sep) d))
  = dict_get k (rev (leaf_items sep d parent_key)).
Proof.
  induction d as [|k0 v rest IHv IHrest] using dict_json_ind;
    intros parent_key k; [reflexivity|].
  simpl flat_map.
  rewrite leaf_items_cons, !rev_app_distr, !dict_get_app, IHrest.
  destruct (dict_get k (rev (leaf_items sep rest parent_key))); [reflexivity|].
  unfold flatten_step. simpl fst. simpl snd.
  destruct v; try reflexivity.
  rewrite dict_get_rev by apply flatten_wf.
  rewrite flatten_unfold, dict_get_of_items.
  apply (IHv d eq_refl).
Qed.

(** Looking a key up in the flattened mapping finds the last leaf that was
    given that key. *)
Lemma flatten_get (sep : string) (d : dict json) (parent_key k : string) :
  dict_get k (flatten d parent_key sep)
  = dict_get k (rev (leaf_items sep d parent_key)).
Proof.
  rewrite flatten_unfold, dict_get_of_items. apply flatten_steps_get.
Qed.

(** ** Keys of leaves *)

Lemma string_app_assoc (a b c : string) :
  ((a ++ b) ++ c = a ++ (b ++ c))%string.
Proof. induction a as [|x a IH]; simpl; [reflexivity | now rewrite IH]. Qed.

Lemma truthy_app (a b : string) :
  truthy a = true -> truthy (a ++ b) = true.
Proof. now destruct a. Qed.

(** Below a non-empty parent key the key of a path is the parent key, the
    separator and the joined path. *)
Lemma flat_key_below (sep : string) (path : list string) : forall parent_key,
  truthy parent_key = true -> path <> [] ->
  flat_key sep parent_key path = (parent_key ++ sep ++ join sep path)%string.
Proof.
  induction path as [|k rest IH]; intros parent_key Hp Hne; [congruence|].
  simpl flat_key. unfold new_key. rewrite Hp.
  destruct rest as [|k2 rest]; [reflexivity|].
  rewrite IH by (try apply truthy_app; congruence).
  change (join sep (k :: k2 :: rest))
    with (k ++ sep ++ join sep (k2 :: rest))%string.
  now rewrite !string_app_assoc.
Qed.

(** At top level the key of a path is the joined path, unless the path
    goes through a mapping bound to the empty key. *)
Lemma flat_key_top (sep : string) (path : list string) :
  tl path = [] \/ truthy (hd ""%string path) = true ->
  flat_key sep "" path = join sep path.
Proof.
  destruct path as [|k [|k2 rest]]; [reflexivity | reflexivity |].
  simpl tl. simpl hd. intros [H|Hk]; [discriminate|].
  simpl flat_key. change (new_key "" sep k) with k.
  change (flat_key sep (new_key k sep k2) rest) with (flat_key sep k (k2 :: rest)).
  now rewrite flat_key_below.
Qed.

Lemma leaf_paths_here (k : string) (v : json) (d : dict json) :
  In (k, v) d -> is_mapping v = false -> In ([k], v) (leaf_paths (JDict d)).
Proof.
  induction d as [|[k' v'] rest IH]; intros Hin Hv; [contradiction|].
  rewrite leaf_paths_cons. apply in_or_app.
  destruct Hin as [Heq|Hin]; [|right; now apply IH].
  injection Heq as Hk Hv'. subst k' v'. left.
  destruct v; simpl in Hv; try discriminate; now left.
Qed.

Lemma leaf_paths_below (k : string) (d' d : dict json) (path : list string)
  (v : json) :
  In (k, JDict d') d -> In (path, v) (leaf_paths (JDict d')) ->
  In (k :: path, v) (leaf_paths (JDict d)).
Proof.
  induction d as [|[k' v'] rest IH]; intros Hin Hsub; [contradiction|].
  rewrite leaf_paths_cons. apply in_or_app.
  destruct Hin as [Heq|Hin]; [|right; now apply IH].
  injection Heq as Hk Hv'. subst k' v'. left.
  exact (in_map (fun pv => (k :: fst pv, snd pv)) _ _ Hsub).
Qed.

Lemma value_at_leaf_paths (d : dict json) (path : list string) (v : json) :
  value_at d path v -> is_mapping v = false ->
  In (path, v) (leaf_paths (JDict d)).
Proof.
  induction 1 as [d k v Hin | d d' k path v Hin Hat IH]; intros Hv.
  - now apply leaf_paths_here.
  - apply (leaf_paths_below k d'); [exact Hin | now apply IH].
Qed.

Lemma dict_get_unique_value {V : Type} (k : string) (v : V) (l : dict V) :
  In k (keys l) -> (forall v', In (k, v') l -> v' = v) ->
  dict_get k l = Some v.
Proof.
  intros Hk Huniq. destruct (dict_get_Some_key k l Hk) as (v' & Hget).
  rewrite Hget. f_equal. apply Huniq. now apply dict_get_In.
Qed.

(** C7, as the module behaves.  A value that is not a mapping, empty list
    or empty string included, is a leaf: [flatten] appends an item for it
    under the key built from its path, and that key is a key of the result.
    It is bound to that very value unless another leaf with a different
    value is given the same key (the last such leaf wins).  The key is the
    separator-joined path whenever the path does not start with an empty
    key followed by more keys.  For instance [{"a": [], "b": {"c": ""}}]
    flattens to [{"a": [], "b_c": ""}]. *)
Theorem non_mapping_value_is_leaf (d : dict json) (sep : string)
  (path : list string) (v : json) :
  value_at d path v -> is_mapping v = false ->
  In (flat_key sep "" path, v) (leaf_items sep d "")
  /\ (exists v', dict_get (flat_key sep "" path) (flatten d "" sep) = Some v')
  /\ ((forall v', In (flat_key sep "" path, v') (leaf_items sep d "") -> v' = v) ->
      dict_get (flat_key sep "" path) (flatten d "" sep) = Some v)
  /\ (tl path = [] \/ truthy (hd ""%string path) = true ->
      flat_key sep "" path = join sep path)
  /\ flatten [("a"%string, JList []);
              ("b"%string, JDict [("c"%string, JStr "")])] "" "_"
     = [("a"%string, JList []); ("b_c"%string, JStr "")].
Proof.
  intros Hat Hv.
  assert (Hin : In (flat_key sep "" path, v) (leaf_items sep d "")).
  { unfold leaf_items.
    exact (in_map (fun pv => (flat_key sep "" (fst pv), snd pv)) _ _
                  (value_at_leaf_paths d path v Hat Hv)). }
  assert (Hkey : In (flat_key sep "" path) (keys (rev (leaf_items sep d "")))).
  { unfold keys. rewrite map_rev. apply -> in_rev.
    change (flat_key sep "" path) with (fst (flat_key sep "" path, v)).
    now apply in_map. }
  split; [exact Hin|]. split; [|split; [|split]].
  - rewrite flatten_get. now apply dict_get_Some_key.
  - intros Huniq. rewrite flatten_get.
    apply dict_get_unique_value; [exact Hkey|].
    intros v' Hv'. apply Huniq. now apply in_rev.
  - apply flat_key_top.
  - reflexivity.
Qed.

Lemma non_mapping_value_is_leaf_witness :
  dict_get "b_c" (flatten [("a"%string, JList []);
                           ("b"%string, JDict [("c"%string, JStr "")])] "" "_")
  = Some (JStr "").
Proof.
  refine (proj1 (proj2 (proj2
    (non_mapping_value_is_leaf
       [("a"%string, JList []); ("b"%string, JDict [("c"%string, JStr "")])]
       "_" ["b"%string; "c"%string] (JStr "") _ _))) _).
  - apply value_below with (d' := [("c"%string, JStr "")]).
    + right. now left.
    + apply value_here. now left.
  - reflexivity.
  - intros v' [H|[H|[]]]; [discriminate | now injection H].
Defined.

(** C7, as stated, fails when two leaves are given the same key: in
    [{"a_b": 1, "a": {"b": 2}}] the value 1 is not a mapping and its path
    joins to ["a_b"], but the flattened mapping binds ["a_b"] to 2. *)
Lemma colliding_leaf_is_overwritten :
  let d := [("a_b"%string, JInt 1);
            ("a"%string, JDict [("b"%string, JInt 2)])] in
  value_at d ["a_b"%string] (JInt 1)
  /\ is_mapping (JInt 1) = false
  /\ flatten d "" "_" = [("a_b"%string, JInt 2)]
  /\ dict_get (join "_" ["a_b"%string]) (flatten d "" "_") <> Some (JInt 1).
Proof.
  intros d. split; [|split; [|split]].
  - apply value_here. now left.
  - reflexivity.
  - reflexivity.
  - discriminate.
Qed.

(** ** Splitting joined keys *)

Lemma split_free (c : ascii) (k : string) :
  has_char c k = false -> split c k = [k].
Proof.
  induction k as [|a k IH]; simpl; intros Hfree; [reflexivity|].
  apply orb_false_iff in Hfree as [Ha Hk].
  now rewrite Ha, (IH Hk).
Qed.

Lemma split_app (c : ascii) (k s : string) :
  has_char c k = false ->
  split c (k ++ String c s) = k :: split c s.
Proof.
  induction k as [|a k IH]; simpl; intros Hfree.
  - now rewrite Ascii.eqb_refl.
  - apply orb_false_iff in Hfree as [Ha Hk].
    now rewrite Ha, (IH Hk).
Qed.

Lemma split_join (c : ascii) (path : list string) :
  path <> [] ->
  Forall (fun k => has_char c k = false) path ->
  split c (join (String c "") path) = path.
Proof.
  induction path as [|k rest IH]; intros Hne Hfree; [congruence|].
  inversion Hfree as [|? ? Hk Hrest]; subst.
  destruct rest as [|k2 rest]; [now apply split_free|].
  change (join (String c "") (k :: k2 :: rest))
    with (k ++ String c (join (String c "") (k2 :: rest)))%string.
  rewrite split_app by assumption.
  f_equal. apply IH; [congruence | assumption].
Qed.

(** ** The shape of a nest, one binding at a time *)

Lemma nodupb_NoDup (l : list string) : nodupb l = true <-> NoDup l.
Proof.
  induction l as [|x rest IH]; simpl.
  - split; [constructor | reflexivity].
  - rewrite andb_true_iff, negb_true_iff, IH. split.
    + intros [Hx Hrest]. constructor; [|assumption].
      intros Hin. assert (existsb (String.eqb x) rest = true); [|congruence].
      apply existsb_exists. exists x. split; [exact Hin|apply String.eqb_refl].
    + intros Hnd. inversion Hnd as [|? ? Hnot Hnd']; subst. split; [|assumption].
      destruct (existsb (String.eqb x) rest) eqn:He; [|reflexivity].
      apply existsb_exists in He. destruct He as (y & Hy & Hxy).
      apply String.eqb_eq in Hxy. subst y. contradiction.
Qed.

Lemma dicts_wf_cons (k : string) (v : json) (rest : dict json) :
  dicts_wf ((k, v) :: rest) = true ->
  ~ In k (keys rest) /\ dicts_wf rest = true
  /\ forall d', v = JDict d' -> dicts_wf d' = true.
Proof.
  unfold dicts_wf. simpl. rewrite !andb_true_iff, negb_true_iff.
  intros [[Hk Hnd] [Hv Hrest]]. split; [|split].
  - intros Hin. assert (existsb (String.eqb k) (keys rest) = true);
      [|unfold keys in *; congruence].
    apply existsb_exists. exists k. split; [exact Hin|apply String.eqb_refl].
  - now rewrite Hnd, Hrest.
  - intros d' ->. exact Hv.
Qed.

Lemma keys_free_of_cons (c : ascii) (k : string) (v : json) (rest : dict json) :
  keys_free_of c ((k, v) :: rest) = true ->
  has_char c k = false /\ keys_free_of c rest = true
  /\ forall d', v = JDict d' -> keys_free_of c d' = true.
Proof.
  unfold keys_free_of. simpl. rewrite !andb_true_iff, negb_true_iff.
  intros [[Hk Hks] [Hv Hrest]]. split; [|split].
  - exact Hk.
  - now rewrite Hks, Hrest.
  - intros d' ->. exact Hv.
Qed.

Lemma no_empty_mapping_cons (k : string) (v : json) (rest : dict json) :
  no_empty_mapping ((k, v) :: rest) = true ->
  no_empty_mapping rest = true
  /\ forall d', v = JDict d' -> d' <> [] /\ no_empty_mapping d' = true.
Proof.
  unfold no_empty_mapping. simpl. rewrite andb_true_iff.
  intros [Hv Hrest]. split; [exact Hrest|].
  intros d' ->. simpl in Hv. apply andb_true_iff in Hv as [Hne Hsub].
  split; [now destruct d' | exact Hsub].
Qed.

(** ** The paths of the leaves *)

Lemma leaf_paths_head (d : dict json) (path : list string) (v : json) :
  In (path, v) (leaf_paths (JDict d)) ->
  exists k rest,
    path = k :: rest /\ In k (keys d)
    /\ (rest = [] \/ exists d', In (k, JDict d') d).
Proof.
  induction d as [|[k0 v0] tail IH]; intros Hin; [contradiction|].
  rewrite leaf_paths_cons in Hin. apply in_app_or in Hin as [Hin|Hin].
  - destruct v0;
      try (destruct Hin as [Heq|[]]; injection Heq as <- _;
           exists k0, []; repeat split; [now left | now left]).
    apply in_map_iff in Hin. destruct Hin as ([p x] & Heq & _).
    injection Heq as <- _. exists k0, p. repeat split; [now left|].
    right. exists d. now left.
  - destruct (IH Hin) as (k & rest & -> & Hk & Hrest).
    exists k, rest. repeat split; [now right|].
    destruct Hrest as [->|(d' & Hd')]; [now left|].
    right. exists d'. now right.
Qed.

Lemma leaf_paths_free (c : ascii) (d : dict json) :
  keys_free_of c d = true ->
  forall path v, In (path, v) (leaf_paths (JDict d)) ->
    Forall (fun k => has_char c k = false) path.
Proof.
  induction d as [|k0 v0 rest IHv IHrest] using dict_json_ind;
    intros Hfree path v Hin; [contradiction|].
  apply keys_free_of_cons in Hfree as (Hk0 & Hrest & Hv0).
  rewrite leaf_paths_cons in Hin. apply in_app_or in Hin as [Hin|Hin];
    [|now apply (IHrest Hrest path v)].
  destruct v0;
    try (destruct Hin as [Heq|[]]; injection Heq as <- _;
         now repeat constructor).
  apply in_map_iff in Hin. destruct Hin as ([p x] & Heq & Hin).
  injection Heq as <- _. constructor; [exact Hk0|].
  apply (IHv d eq_refl (Hv0 d eq_refl) p x Hin).
Qed.

Lemma leaf_paths_NoDup (d : dict json) :
  dicts_wf d = true -> NoDup (map fst (leaf_paths (JDict d))).
Proof.
  induction d as [|k0 v0 rest IHv IHrest] using dict_json_ind;
    intros Hwf; [constructor|].
  apply dicts_wf_cons in Hwf as (Hk0 & Hrest & Hv0).
  rewrite leaf_paths_cons, map_app. apply NoDup_app.
  - destruct v0; try (simpl; constructor; [now intros []|constructor]).
    rewrite map_map. simpl.
    rewrite <- (map_map fst (cons k0)).
    apply NoDup_map_NoDup_ForallPairs;
      [intros ? ? _ _ Heq; now injection Heq | exact (IHv d eq_refl (Hv0 d eq_refl))].
  - now apply IHrest.
  - intros path Hhead Htail.
    apply in_map_iff in Htail. destruct Htail as ([p v] & <- & Htail).
    apply leaf_paths_head in Htail. destruct Htail as (k & r & Hp & Hk & _).
    simpl in Hp. subst p.
    assert (k = k0); [|subst k; contradiction].
    destruct v0;
      try (destruct Hhead as [Heq|[]]; now injection Heq).
    rewrite map_map in Hhead. apply in_map_iff in Hhead.
    destruct Hhead as (? & Heq & _). now injection Heq.
Qed.

Lemma leaf_paths_not_nil (d : dict json) :
  d <> [] -> no_empty_mapping d = true -> leaf_paths (JDict d) <> [].
Proof.
  induction d as [|k0 v0 rest IHv _] using dict_json_ind;
    intros Hne Hnem; [congruence|].
  apply no_empty_mapping_cons in Hnem as (_ & Hv0).
  rewrite leaf_paths_cons. destruct v0; try discriminate.
  destruct (Hv0 d eq_refl) as [Hd Hsub].
  specialize (IHv d eq_refl Hd Hsub).
  destruct (leaf_paths (JDict d)); [congruence | discriminate].
Qed.

(** ** Flattening without collisions *)

Lemma keys_app {V : Type} (a b : dict V) : keys (a ++ b) = keys a ++ keys b.
Proof. apply map_app. Qed.

Lemma flatten_steps_leaf_items (sep : string) (d : dict json) :
  forall parent_key,
    NoDup (keys (leaf_items sep d parent_key)) ->
    flat_map (flatten_step parent_key sep) d = leaf_items sep d parent_key.
Proof.
  induction d as [|k0 v0 rest IHv IHrest] using dict_json_ind;
    intros parent_key Hnd; [reflexivity|].
  rewrite leaf_items_cons in Hnd |- *. rewrite keys_app in Hnd.
  simpl flat_map.
  rewrite (IHrest parent_key (NoDup_app_remove_l _ _ Hnd)).
  f_equal. unfold flatten_step. simpl fst. simpl snd.
  destruct v0; try reflexivity.
  apply NoDup_app_remove_r in Hnd.
  rewrite flatten_unfold, (IHv d eq_refl _ Hnd).
  now apply dict_of_items_nodup.
Qed.

(** When the leaves get pairwise distinct keys, [flatten] returns exactly
    its list of leaves. *)
Lemma flatten_leaf_items (sep : string) (d : dict json) (parent_key : string) :
  NoDup (keys (leaf_items sep d parent_key)) ->
  flatten d parent_key sep = leaf_items sep d parent_key.
Proof.
  intros Hnd. rewrite flatten_unfold, flatten_steps_leaf_items by assumption.
  now apply dict_of_items_nodup.
Qed.

Lemma leaf_paths_top_key (d : dict json) (path : list string) (v : json) :
  no_empty_top_key d = true ->
  In (path, v) (leaf_paths (JDict d)) ->
  tl path = [] \/ truthy (hd ""%string path) = true.
Proof.
  intros Htop Hin.
  destruct (leaf_paths_head d path v Hin) as (k & rest & -> & _ & [->|(d' & Hd')]);
    [now left|].
  right. simpl. unfold no_empty_top_key in Htop.
  rewrite forallb_forall in Htop. specialize (Htop _ Hd'). simpl in Htop.
  now rewrite orb_false_r in Htop.
Qed.

Lemma leaf_items_joined (sep : string) (d : dict json) :
  no_empty_top_key d = true ->
  leaf_items sep d ""
  = map (fun pv => (join sep (fst pv), snd pv)) (leaf_paths (JDict d)).
Proof.
  intros Htop. unfold leaf_items. apply map_ext_in. intros [path v] Hin.
  simpl. f_equal. apply flat_key_top. now apply (leaf_paths_top_key d path v).
Qed.

Lemma leaf_items_NoDup (c : ascii) (d : dict json) :
  dicts_wf d = true -> keys_free_of c d = true -> no_empty_top_key d = true ->
  NoDup (keys (leaf_items (String c "") d "")).
Proof.
  intros Hwf Hfree Htop. rewrite leaf_items_joined by assumption.
  unfold keys. rewrite map_map. simpl.
  rewrite <- (map_map fst (join (String c ""))).
  apply NoDup_map_NoDup_ForallPairs; [|now apply leaf_paths_NoDup].
  intros p q Hp Hq Heq.
  apply in_map_iff in Hp, Hq.
  destruct Hp as ([p' vp] & <- & Hp), Hq as ([q' vq] & <- & Hq). simpl in *.
  rewrite <- (split_join c p'), <- (split_join c q'), Heq; try reflexivity.
  - destruct (leaf_paths_head d q' vq Hq) as (? & ? & -> & _). discriminate.
  - now apply (leaf_paths_free c d Hfree q' vq).
  - destruct (leaf_paths_head d p' vp Hp) as (? & ? & -> & _). discriminate.
  - now apply (leaf_paths_free c d Hfree p' vp).
Qed.

(** ** Putting the leaves back *)

Section Rebuild.

Local Abbreviation ins := insert_leaf.

Lemma dict_set_last {V : Type} (k : string) (x y : V) (acc : dict V) :
  ~ In k (keys acc) ->
  dict_set k x (acc ++ [(k, y)]) = acc ++ [(k, x)].
Proof.
  induction acc as [|[k' v'] rest IH]; simpl; intros Hk.
  - now rewrite String.eqb_refl.
  - destruct (String.eqb_spec k k') as [->|_].
    + exfalso. apply Hk. now left.
    + rewrite IH; [reflexivity|]. intros Hin. apply Hk. now right.
Qed.

Lemma ins_under (k : string) (acc s : dict json) (pv : list string * json) :
  ~ In k (keys acc) -> fst pv <> [] ->
  ins (acc ++ [(k, JDict s)]) (k :: fst pv, snd pv)
  = acc ++ [(k, JDict (ins s pv))].
Proof.
  intros Hk Hne. unfold insert_leaf. simpl fst. simpl snd.
  destruct (fst pv) as [|k2 r] eqn:Hp; [congruence|].
  change (insert_path (k :: k2 :: r) (snd pv) (acc ++ [(k, JDict s)]))
    with (dict_set k
            (JDict (insert_path (k2 :: r) (snd pv)
                      match dict_get k (acc ++ [(k, JDict s)]) with
                      | Some (JDict s') => s'
                      | _ => []
                      end))
            (acc ++ [(k, JDict s)])).
  rewrite dict_get_app, (dict_get_None k acc Hk). simpl dict_get.
  rewrite String.eqb_refl. now apply dict_set_last.
Qed.

Lemma ins_under_fresh (k : string) (acc : dict json) (pv : list string * json) :
  ~ In k (keys acc) -> fst pv <> [] ->
  ins acc (k :: fst pv, snd pv) = acc ++ [(k, JDict (ins [] pv))].
Proof.
  intros Hk Hne. unfold insert_leaf. simpl fst. simpl snd.
  destruct (fst pv) as [|k2 r] eqn:Hp; [congruence|].
  change (insert_path (k :: k2 :: r) (snd pv) acc)
    with (dict_set k
            (JDict (insert_path (k2 :: r) (snd pv)
                      match dict_get k acc with
                      | Some (JDict s') => s'
                      | _ => []
                      end))
            acc).
  rewrite (dict_get_None k acc Hk). now apply dict_set_fresh.
Qed.

Lemma fold_ins_under (k : string) (acc : dict json)
  (L : list (list string * json)) :
  ~ In k (keys acc) -> (forall pv, In pv L -> fst pv <> []) ->
  forall s,
    fold_left ins (map (fun pv => (k :: fst pv, snd pv)) L)
              (acc ++ [(k, JDict s)])
    = acc ++ [(k, JDict (fold_left ins L s))].
Proof.
  intros Hk. induction L as [|pv L IH]; intros Hne s; [reflexivity|].
  simpl. rewrite ins_under by (try assumption; apply Hne; now left).
  apply IH. intros pv' Hin. apply Hne. now right.
Qed.

Lemma fold_ins_under_fresh (k : string) (acc : dict json)
  (L : list (list string * json)) :
  ~ In k (keys acc) -> L <> [] -> (forall pv, In pv L -> fst pv <> []) ->
  fold_left ins (map (fun pv => (k :: fst pv, snd pv)) L) acc
  = acc ++ [(k, JDict (fold_left ins L []))].
Proof.
  intros Hk HL Hne. destruct L as [|pv L]; [congruence|].
  simpl. rewrite ins_under_fresh by (try assumption; apply Hne; now left).
  apply fold_ins_under; [assumption|].
  intros pv' Hin. apply Hne. now right.
Qed.

(** Inserting the leaves of a nest one after the other, in the order of
    [flatten], appends the nest to what was there. *)
Lemma fold_ins_leaf_paths (d : dict json) :
  dicts_wf d = true -> no_empty_mapping d = true ->
  forall acc,
    (forall k, In k (keys d) -> ~ In k (keys acc)) ->
    fold_left ins (leaf_paths (JDict d)) acc = acc ++ d.
Proof.
  induction d as [|k0 v0 rest IHv IHrest] using dict_json_ind;
    intros Hwf Hnem acc Hdisj; [simpl; now rewrite app_nil_r|].
  apply dicts_wf_cons in Hwf as (Hk0 & Hwf_rest & Hwf_v).
  apply no_empty_mapping_cons in Hnem as (Hnem_rest & Hnem_v).
  assert (Hfresh : ~ In k0 (keys acc)) by (apply Hdisj; now left).
  assert (Hstep : forall x, fold_left ins (leaf_paths (JDict rest))
                              (acc ++ [(k0, x)])
                            = acc ++ (k0, x) :: rest).
  { intros x. rewrite (IHrest Hwf_rest Hnem_rest).
    - now rewrite <- app_assoc.
    - intros k Hk. rewrite keys_app. intros Hin.
      apply in_app_or in Hin as [Hin|[<-|[]]].
      + apply (Hdisj k); [now right | exact Hin].
      + contradiction. }
  rewrite leaf_paths_cons, fold_left_app.
  destruct v0.
  1-6: simpl fold_left at 2; unfold insert_leaf at 2; simpl fst; simpl snd;
       simpl insert_path; rewrite dict_set_fresh by assumption; apply Hstep.
  destruct (Hnem_v d eq_refl) as [Hd Hnem_d].
  rewrite fold_ins_under_fresh; try assumption.
  - rewrite (IHv d eq_refl (Hwf_v d eq_refl) Hnem_d []) by (intros ? _ []).
    apply Hstep.
  - now apply leaf_paths_not_nil.
  - intros [p x] Hin. simpl.
    destruct (leaf_paths_head d p x Hin) as (? & ? & -> & _). discriminate.
Qed.

Lemma fold_left_ext_in {A B : Type} (f g : A -> B -> A) (l : list B) :
  (forall a x, In x l -> f a x = g a x) ->
  forall a, fold_left f l a = fold_left g l a.
Proof.
  induction l as [|x l IH]; intros Hext a; [reflexivity|].
  simpl. rewrite Hext by now left.
  apply IH. intros a' x' Hin. apply Hext. now right.
Qed.

Lemma fold_left_over_map {A B C : Type} (f : A -> C -> A) (g : B -> C)
  (l : list B) : forall a,
  fold_left f (map g l) a = fold_left (fun a x => f a (g x)) l a.
Proof. induction l as [|x l IH]; intros a; [reflexivity | apply IH]. Qed.

Lemma unflatten_leaf_items (c : ascii) (d : dict json) :
  keys_free_of c d = true -> no_empty_top_key d = true ->
  unflatten c (leaf_items (String c "") d "")
  = fold_left ins (leaf_paths (JDict d)) [].
Proof.
  intros Hfree Htop. rewrite leaf_items_joined by assumption.
  unfold unflatten.
  rewrite fold_left_over_map.
  apply fold_left_ext_in. intros acc [path v] Hin. unfold insert_leaf. simpl.
  rewrite split_join; [reflexivity| |].
  - destruct (leaf_paths_head d path v Hin) as (? & ? & -> & _). discriminate.
  - now apply (leaf_paths_free c d Hfree path v).
Qed.

End Rebuild.

(** C2, as the module behaves.  Flattening with a one-character separator
    and re-nesting by splitting every key on it gives back the original
    nest of dicts, provided that no key contains the separator, that no
    value of the nest is an empty mapping, and that the empty string is not
    the top-level key of a mapping. *)
Theorem flatten_unflatten_roundtrip (c : ascii) (d : dict json) :
  dicts_wf d = true ->
  keys_free_of c d = true ->
  no_empty_mapping d = true ->
  no_empty_top_key d = true ->
  unflatten c (flatten d "" (String c "")) = d.
Proof.
  intros Hwf Hfree Hnem Htop.
  rewrite flatten_leaf_items by now apply leaf_items_NoDup.
  rewrite unflatten_leaf_items by assumption.
  now rewrite (fold_ins_leaf_paths d Hwf Hnem []) by (intros ? _ []).
Qed.

Lemma flatten_unflatten_roundtrip_witness :
  let d := [("market"%string,
             JDict [("price"%string, JDict [("usd"%string, JInt 50000)]);
                    ("volume"%string, JNull)]);
            ("symbol"%string, JStr "BTC")] in
  unflatten "_" (flatten d "" "_") = d.
Proof.
  intros d.
  apply (flatten_unflatten_roundtrip "_"%char d); reflexivity.
Defined.

(** C2, as stated, fails on a nest that holds an empty mapping: no key of
    [{"a": {}}] contains the separator, yet it flattens to the empty
    mapping, as [{}] does, and re-nesting gives [{}] back. *)
Lemma empty_mapping_is_lost :
  let d := [("a"%string, JDict [])] in
  dicts_wf d = true
  /\ keys_free_of "_" d = true
  /\ flatten d "" "_" = flatten [] "" "_"
  /\ unflatten "_" (flatten d "" "_") <> d.
Proof.
  intros d. repeat split. discriminate.
Qed.

(* ================================================================== *)
(** * Further properties of the module                                 *)
(* ================================================================== *)

(** ** [all_eq] and [merge_dicts] *)

(** X1.  [all_eq] holds exactly of the lists that repeat one value (the
    empty list included). *)
Theorem all_eq_iff_constant (l : list nat) :
  all_eq l = true <-> l = repeat (hd 0 l) (List.length l).
Proof.
  rewrite all_eq_true_iff. split.
  - intros Heq. apply Forall_eq_repeat. apply Forall_forall.
    intros x Hx. destruct l as [|a l]; [contradiction|].
    simpl. apply Heq; [now left | exact Hx].
  - intros Hrep x y Hx Hy. rewrite Hrep in Hx, Hy.
    apply repeat_spec in Hx, Hy. congruence.
Qed.

Lemma merge_dicts_concat {V : Type} (dicts : list (dict V)) : forall acc,
  fold_left (@dict_update V) dicts acc = dict_update acc (List.concat dicts).
Proof.
  induction dicts as [|d rest IH]; intros acc; [reflexivity|].
  simpl. rewrite IH. unfold dict_update. now rewrite fold_left_app.
Qed.

Lemma keys_iff_get {V : Type} (k : string) (d : dict V) :
  In k (keys d) <-> dict_get k d <> None.
Proof.
  split.
  - intros Hin. destruct (dict_get_Some_key k d Hin) as (v & ->). discriminate.
  - intros Hget. destruct (in_dec string_dec k (keys d)) as [Hin|Hnot];
      [exact Hin|]. now rewrite dict_get_None in Hget.
Qed.

(** X2.  [merge_dicts] always returns a dict; its keys are the keys of the
    inputs, and the value of a key is the one of the last item with that
    key, the items being read dict after dict. *)
Theorem merge_dicts_last_wins {V : Type} (dicts : list (dict V)) :
  dict_wf (merge_dicts dicts)
  /\ (forall k, In k (keys (merge_dicts dicts))
                <-> exists d, In d dicts /\ In k (keys d))
  /\ (forall k, dict_get k (merge_dicts dicts)
                = dict_get k (rev (List.concat dicts))).
Proof.
  unfold merge_dicts. rewrite merge_dicts_concat.
  assert (Hget : forall k, dict_get k (dict_update [] (List.concat dicts))
                           = dict_get k (rev (List.concat dicts)))
    by (intros k; apply (dict_get_of_items k)).
  split; [apply dict_update_wf; constructor|]. split; [|exact Hget].
  intros k. rewrite keys_iff_get, Hget, <- keys_iff_get.
  unfold keys. rewrite map_rev, <- in_rev, in_map_iff. split.
  - intros ([k' v] & <- & Hin). apply in_concat in Hin.
    destruct Hin as (d & Hd & Hkv). exists d. split; [exact Hd|].
    now apply (in_map fst) in Hkv.
  - intros (d & Hd & Hk). apply in_map_iff in Hk.
    destruct Hk as (kv & <- & Hkv). exists kv. split; [reflexivity|].
    apply in_concat. now exists d.
Qed.

(** X3.  On dicts with mutually exclusive keys [merge_dicts] loses nothing:
    the result is the items of the inputs, in order. *)
Theorem merge_dicts_exclusive_keys {V : Type} (dicts : list (dict V)) :
  NoDup (keys (List.concat dicts)) -> merge_dicts dicts = List.concat dicts.
Proof.
  intros Hnd. unfold merge_dicts. rewrite merge_dicts_concat.
  now apply (dict_of_items_nodup (List.concat dicts)).
Qed.

Lemma merge_dicts_exclusive_keys_witness :
  merge_dicts [[("A"%string, 1); ("B"%string, 2)]; []; [("C"%string, 3)]]
  = [("A"%string, 1); ("B"%string, 2); ("C"%string, 3)].
Proof.
  apply (merge_dicts_exclusive_keys
           [[("A"%string, 1); ("B"%string, 2)]; []; [("C"%string, 3)]]).
  unfold keys. simpl.
  repeat (constructor; [simpl; intuition discriminate|]). constructor.
Defined.

(** ** More on [flatten] *)

Lemma dict_get_of_In {V : Type} (k : string) (v : V) (d : dict V) :
  dict_wf d -> In (k, v) d -> dict_get k d = Some v.
Proof.
  unfold dict_wf.
  induction d as [|[k' v'] rest IH]; simpl; intros Hnd Hin; [contradiction|].
  inversion Hnd as [|? ? Hnot Hnd']; subst.
  destruct Hin as [Heq|Hin].
  - injection Heq as Hk Hv. subst k' v'. now rewrite String.eqb_refl.
  - destruct (String.eqb_spec k k') as [Heq|_]; [|now apply IH].
    exfalso. apply Hnot. subst k'. now apply (in_map fst) in Hin.
Qed.

Lemma leaf_paths_values (d : dict json) :
  forall path v, In (path, v) (leaf_paths (JDict d)) -> is_mapping v = false.
Proof.
  induction d as [|k0 v0 rest IHv IHrest] using dict_json_ind;
    intros path v Hin; [contradiction|].
  rewrite leaf_paths_cons in Hin. apply in_app_or in Hin as [Hin|Hin];
    [|now apply (IHrest path v)].
  destruct v0;
    try (destruct Hin as [Heq|[]]; injection Heq as _ <-; reflexivity).
  apply in_map_iff in Hin. destruct Hin as ([p x] & Heq & Hin).
  injection Heq as _ <-. apply (IHv d eq_refl p x Hin).
Qed.

Lemma flatten_In_leaf (sep : string) (d : dict json) (parent_key : string)
  (k : string) (v : json) :
  In (k, v) (flatten d parent_key sep) ->
  In (k, v) (leaf_items sep d parent_key).
Proof.
  intros Hin. apply dict_get_of_In in Hin; [|apply flatten_wf].
  rewrite flatten_get in Hin. apply dict_get_In in Hin. now apply in_rev.
Qed.

(** X4.  Whatever the input, the parent key and the separator, the result
    of [flatten] is a flat dict: its keys are pairwise distinct and none of
    its values is a mapping.  Flattening it again, with any separator,
    changes nothing. *)
Theorem flatten_result_is_flat (d : dict json) (parent_key sep sep' : string) :
  dict_wf (flatten d parent_key sep)
  /\ is_flat (flatten d parent_key sep) = true
  /\ flatten (flatten d parent_key sep) "" sep' = flatten d parent_key sep.
Proof.
  assert (Hflat : is_flat (flatten d parent_key sep) = true).
  { unfold is_flat. apply forallb_forall. intros [k v] Hin. simpl.
    apply flatten_In_leaf in Hin. unfold leaf_items in Hin.
    apply in_map_iff in Hin. destruct Hin as ([p x] & Heq & Hin).
    injection Heq as _ <-. simpl.
    now rewrite (leaf_paths_values d p x Hin). }
  split; [apply flatten_wf|]. split; [exact Hflat|].
  rewrite (flatten_unfold (flatten d parent_key sep)).
  rewrite flat_map_step_flat by exact Hflat.
  apply dict_of_items_nodup. apply flatten_wf.
Qed.

(** X5.  Looking a key up in the result of [flatten] gives the value of the
    last leaf that was given that key; the keys of the result are exactly
    the keys given to leaves, and the result has at most as many entries as
    there are leaves. *)
Theorem flatten_lookup_last_leaf (d : dict json) (parent_key sep : string) :
  (forall k, dict_get k (flatten d parent_key sep)
             = dict_get k (rev (leaf_items sep d parent_key)))
  /\ (forall k, In k (keys (flatten d parent_key sep))
                <-> In k (keys (leaf_items sep d parent_key)))
  /\ List.length (flatten d parent_key sep)
     <= List.length (leaf_paths (JDict d)).
Proof.
  assert (Hkeys : forall k, In k (keys (flatten d parent_key sep))
                            <-> In k (keys (leaf_items sep d parent_key))).
  { intros k. rewrite keys_iff_get, flatten_get, <- keys_iff_get.
    unfold keys. rewrite map_rev. symmetry. apply in_rev. }
  split; [intros k; apply flatten_get|]. split; [exact Hkeys|].
  replace (List.length (flatten d parent_key sep))
    with (List.length (keys (flatten d parent_key sep)))
    by (unfold keys; apply length_map).
  replace (List.length (leaf_paths (JDict d)))
    with (List.length (keys (leaf_items sep d parent_key)))
    by (unfold keys, leaf_items; now rewrite !length_map).
  apply NoDup_incl_length; [apply flatten_wf|].
  intros k Hk. now apply Hkeys.
Qed.

(** X6.  When no two leaves are given the same key, [flatten] loses
    nothing: the result lists every leaf once, under its key, in the order
    in which the nest is walked. *)
Theorem flatten_without_collision (d : dict json) (parent_key sep : string) :
  NoDup (keys (leaf_items sep d parent_key)) ->
  flatten d parent_key sep = leaf_items sep d parent_key
  /\ List.length (flatten d parent_key sep) = List.length (leaf_paths (JDict d)).
Proof.
  intros Hnd. rewrite (flatten_leaf_items sep d parent_key Hnd).
  split; [reflexivity|]. unfold leaf_items. apply length_map.
Qed.

Lemma flatten_without_collision_witness :
  let d := [("a"%string, JDict [("x"%string, JInt 1); ("y"%string, JNull)]);
            ("b"%string, JList [])] in
  flatten d "" "." = leaf_items "." d ""
  /\ List.length (flatten d "" ".") = List.length (leaf_paths (JDict d)).
Proof.
  intros d. apply (flatten_without_collision d "" ".").
  unfold keys. simpl.
  repeat (constructor; [simpl; intuition discriminate|]). constructor.
Defined.

Lemma prefix_app (a b : string) : String.prefix a (a ++ b) = true.
Proof.
  induction a as [|x a IH]; simpl; [now destruct b|].
  destruct (ascii_dec x x) as [_|Hne]; [exact IH | now elim Hne].
Qed.

(** X7.  Called with a non-empty parent key, [flatten] puts that key and
    the separator in front of every key of its result. *)
Theorem flatten_keys_have_parent_prefix (d : dict json)
  (parent_key sep : string) (k : string) :
  truthy parent_key = true ->
  In k (keys (flatten d parent_key sep)) ->
  String.prefix (parent_key ++ sep) k = true.
Proof.
  intros Hp Hk. unfold keys in Hk. apply in_map_iff in Hk.
  destruct Hk as ([k' v] & <- & Hin). simpl.
  apply flatten_In_leaf in Hin. unfold leaf_items in Hin.
  apply in_map_iff in Hin. destruct Hin as ([path x] & Heq & Hin).
  injection Heq as <- _. simpl.
  rewrite flat_key_below; [| exact Hp |].
  - rewrite <- string_app_assoc. apply prefix_app.
  - destruct (leaf_paths_head d path x Hin) as (? & ? & -> & _). discriminate.
Qed.

Lemma flatten_keys_have_parent_prefix_witness :
  String.prefix ("data" ++ "/") "data/price/usd" = true.
Proof.
  apply (flatten_keys_have_parent_prefix
           [("price"%string, JDict [("usd"%string, JInt 7)])]
           "data" "/" "data/price/usd").
  - reflexivity.
  - simpl. now left.
Defined.

(** ** More on the numeric post-filter *)

Lemma filter_twice {A : Type} (f : A -> bool) (l : list A) :
  filter f (filter f l) = filter f l.
Proof.
  induction l as [|x l IH]; [reflexivity|].
  simpl. destruct (f x) eqn:Hx; simpl; [rewrite Hx|]; now rewrite ?IH.
Qed.

Lemma NoDup_filter_keys {V : Type} (f : string * V -> bool) (l : dict V) :
  NoDup (map fst l) -> NoDup (map fst (filter f l)).
Proof.
  induction l as [|[k v] rest IH]; intros Hnd; [constructor|].
  inversion Hnd as [|? ? Hnot Hnd']; subst. simpl.
  destruct (f (k, v)); [|now apply IH].
  simpl. constructor; [|now apply IH].
  intros Hin. apply Hnot. apply in_map_iff in Hin.
  destruct Hin as (kv & Hk & Hkv). apply filter_In in Hkv as [Hkv _].
  rewrite <- Hk. now apply in_map.
Qed.

Lemma numeric_filter_wf (flattened : dict json) :
  dict_wf flattened -> dict_wf (numeric_filter flattened).
Proof.
  unfold dict_wf, keys, numeric_filter.
  intros Hnd. now do 2 apply NoDup_filter_keys.
Qed.

(** X8.  In the numeric post-filter the [None] test is subsumed by the type
    test: the two comprehensions keep exactly the entries whose value is an
    [int] (booleans included) or a [float], in their order.  Filtering
    twice is filtering once, a dict stays a dict, and every key that
    survives keeps its value. *)
Theorem numeric_filter_is_type_test (flattened : dict json) :
  numeric_filter flattened
  = filter (fun kv => isinstance_int (snd kv) || isinstance_float (snd kv))
           flattened
  /\ numeric_filter (numeric_filter flattened) = numeric_filter flattened
  /\ (dict_wf flattened -> dict_wf (numeric_filter flattened))
  /\ (forall k v, dict_wf flattened ->
        dict_get k (numeric_filter flattened) = Some v ->
        dict_get k flattened = Some v).
Proof.
  assert (Hone : forall l : dict json,
            numeric_filter l
            = filter (fun kv => isinstance_int (snd kv) || isinstance_float (snd kv)) l).
  { intros l. unfold numeric_filter.
    induction l as [|[k v] rest IH]; [reflexivity|].
    simpl. destruct v; simpl; now rewrite ?IH. }
  split; [apply Hone|]. split; [|split; [apply numeric_filter_wf|]].
  - rewrite !Hone. apply filter_twice.
  - intros k v Hnd Hget. apply dict_get_of_In; [exact Hnd|].
    apply dict_get_In in Hget. rewrite Hone in Hget.
    now apply filter_In in Hget as [Hin _].
Qed.

(** ** Dates *)

Section Date_facts.
Import Strptime.
Local Open Scope N_scope.

Lemma strptime_Ok_inv (s : string) (y m d : N) :
  strptime s = Ok (y, m, d) ->
  date_ok y m d = true
  /\ exists more, regex_match (list_ascii_of_string s) = ((y, m, d), []) :: more.
Proof.
  unfold strptime.
  destruct (regex_match (list_ascii_of_string s)) as [|[[[y' m'] d'] rest] more];
    [discriminate|].
  destruct rest; [|discriminate].
  destruct (date_ok y' m' d') eqn:Hok; [|discriminate].
  intros H. injection H as <- <- <-. split; [exact Hok | now exists more].
Qed.

End Date_facts.

(** A property of the numbers below a bound, checked number by number. *)
Lemma N_below_cases (P : N -> Prop) (bound : nat) :
  Forall P (map N.of_nat (List.seq 0 bound)) ->
  forall m, (m < N.of_nat bound)%N -> P m.
Proof.
  intros Hall m Hm. rewrite Forall_forall in Hall. apply Hall.
  apply in_map_iff. exists (N.to_nat m). split; [lia|].
  apply in_seq. lia.
Qed.

Section Iso_dates.
Import Strptime.
Local Open Scope N_scope.

Lemma chr_digit_spec (n : N) :
  n < 10 -> digit 0 9 (chr_digit n) = true /\ digit_val (chr_digit n) = n.
Proof.
  revert n.
  apply (N_below_cases
           (fun n => digit 0 9 (chr_digit n) = true /\ digit_val (chr_digit n) = n)
           10).
  simpl map. repeat constructor.
Qed.

Lemma year_digits (y : N) :
  y <= 9999 ->
  1000 * (y / 1000 mod 10) + 100 * (y / 100 mod 10) + 10 * (y / 10 mod 10)
  + y mod 10 = y.
Proof.
  intros Hy.
  assert (H1000 : y / 1000 < 10) by (apply N.Div0.div_lt_upper_bound; lia).
  rewrite (N.mod_small (y / 1000) 10 H1000).
  pose proof (N.div_mod y 10) as E1.
  pose proof (N.div_mod (y / 10) 10) as E2.
  pose proof (N.div_mod (y / 100) 10) as E3.
  replace (y / 10 / 10) with (y / 100) in E2
    by (rewrite N.Div0.div_div; reflexivity).
  replace (y / 100 / 10) with (y / 1000) in E3
    by (rewrite N.Div0.div_div; reflexivity).
  specialize (E1 ltac:(lia)). specialize (E2 ltac:(lia)).
  specialize (E3 ltac:(lia)). lia.
Qed.

Lemma match_Y_isoformat (y : N) (r : list ascii) :
  y <= 9999 ->
  match_Y (chr_digit (y / 1000 mod 10) :: chr_digit (y / 100 mod 10)
           :: chr_digit (y / 10 mod 10) :: chr_digit (y mod 10) :: r)
  = [(y, r)].
Proof.
  intros Hy. unfold match_Y.
  destruct (chr_digit_spec (y / 1000 mod 10)) as [-> ->];
    [apply N.mod_lt; lia|].
  destruct (chr_digit_spec (y / 100 mod 10)) as [-> ->];
    [apply N.mod_lt; lia|].
  destruct (chr_digit_spec (y / 10 mod 10)) as [-> ->];
    [apply N.mod_lt; lia|].
  destruct (chr_digit_spec (y mod 10)) as [-> ->];
    [apply N.mod_lt; lia|].
  simpl andb. cbv iota. now rewrite year_digits.
Qed.

Lemma days_in_month_le_31 (y m : N) : m <= 12 -> days_in_month y m <= 31.
Proof.
  intros Hm. assert (Hm' : m < N.of_nat 13) by (simpl; lia).
  clear Hm. revert m Hm'.
  refine (N_below_cases (fun m => days_in_month y m <= 31) 13 _).
  simpl map. unfold days_in_month.
  repeat constructor; try discriminate; now destruct (is_leap y).
Qed.

(** The month and the day, written on two digits each, are read back by
    the rest of the pattern. *)
Lemma month_day_isoformat (y m d : N) (year : list ascii) :
  (forall r, match_Y (year ++ r) = [(y, r)]) ->
  1 <= m <= 12 -> 1 <= d <= 31 ->
  exists more,
    regex_match (year ++ "-"%char :: chr_digit (m / 10) :: chr_digit (m mod 10)
                 :: "-"%char :: chr_digit (d / 10) :: chr_digit (d mod 10) :: [])
    = ((y, m, d), []) :: more.
Proof.
  intros HY Hm Hd. unfold regex_match. rewrite HY. clear HY.
  assert (Hm' : m < N.of_nat 13) by (simpl; lia).
  assert (Hd' : d < N.of_nat 32) by (simpl; lia).
  destruct Hm as [Hm _]. destruct Hd as [Hd _].
  revert d Hd' Hd. revert m Hm' Hm.
  refine (N_below_cases
            (fun m => 1 <= m -> forall d, d < N.of_nat 32 -> 1 <= d -> _) 13 _).
  simpl map.
  repeat (constructor; [intros Hm; try (exfalso; lia) |]); [..|constructor];
    clear Hm;
    (refine (N_below_cases (fun d => 1 <= d -> _) 32 _); simpl map;
     repeat (constructor;
             [intros Hd; try (exfalso; lia); try (eexists; reflexivity) |]);
     constructor).
Qed.

(** A date text in ten-character form is matched by the pattern, and then
    accepted or refused by the calendar check alone. *)
Lemma strptime_isoformat (y m d : N) :
  y <= 9999 -> 1 <= m <= 12 -> 1 <= d <= 31 ->
  strptime (isoformat_date y m d)
  = if date_ok y m d then Ok (y, m, d) else Raise ValueError.
Proof.
  intros Hy Hm Hd. unfold strptime, isoformat_date.
  rewrite list_ascii_of_string_of_list_ascii.
  assert (HY : forall r,
            match_Y ([chr_digit (y / 1000 mod 10); chr_digit (y / 100 mod 10);
                      chr_digit (y / 10 mod 10); chr_digit (y mod 10)] ++ r)
            = [(y, r)])
    by (intros r; now apply match_Y_isoformat).
  destruct (month_day_isoformat y m d _ HY Hm Hd) as (more & Hre).
  simpl app in Hre. now rewrite Hre.
Qed.

Lemma date_ok_bounds (y m d : N) :
  date_ok y m d = true ->
  1 <= y <= 9999 /\ 1 <= m <= 12 /\ 1 <= d <= days_in_month y m.
Proof.
  unfold date_ok. rewrite !andb_true_iff, !N.leb_le. lia.
Qed.

Lemma strptime_isoformat_ok (y m d : N) :
  date_ok y m d = true -> strptime (isoformat_date y m d) = Ok (y, m, d).
Proof.
  intros Hok. pose proof (date_ok_bounds y m d Hok) as (Hy & Hm & Hd).
  pose proof (days_in_month_le_31 y m ltac:(lia)).
  rewrite strptime_isoformat by lia. now rewrite Hok.
Qed.

(** What the converter of the command line returns. *)
Lemma cli_date_Ok_inv (s s' : string) :
  cli_date s = Ok s' ->
  exists y m d,
    strptime s = Ok (y, m, d) /\ date_ok y m d = true
    /\ s' = isoformat_date y m d.
Proof.
  unfold cli_date.
  destruct (strptime s) as [[[y m] d]|e] eqn:Hparse; [|discriminate].
  simpl. intros H. injection H as <-.
  destruct (strptime_Ok_inv s y m d Hparse) as (Hok & _).
  now exists y, m, d.
Qed.

(** X10.  Every day of the calendar, written [YYYY-MM-DD] with zero
    padding, is read back as the same day by [strptime], so the text passes
    [valid_date]; it has ten characters. *)
Theorem isoformat_round_trip (y m d : N) :
  date_ok y m d = true ->
  strptime (isoformat_date y m d) = Ok (y, m, d)
  /\ valid_date (isoformat_date y m d) = true
  /\ String.length (isoformat_date y m d) = 10%nat.
Proof.
  intros Hok. pose proof (strptime_isoformat_ok y m d Hok) as Hparse.
  split; [exact Hparse|]. split; [|reflexivity].
  unfold valid_date. now rewrite Hparse.
Qed.

Lemma isoformat_round_trip_witness :
  strptime (isoformat_date 2024 2 29) = Ok (2024, 2, 29)
  /\ valid_date (isoformat_date 2024 2 29) = true
  /\ String.length (isoformat_date 2024 2 29) = 10%nat.
Proof. apply (isoformat_round_trip 2024 2 29). reflexivity. Defined.

(** X11.  On a text in ten-character form [valid_date] is the calendar
    check: the year is not 0, and the day exists in that month of that
    year, 29 February being a day of leap years only (every fourth year,
    except the centuries not divisible by 400). *)
Theorem valid_date_follows_calendar (y m d : N) :
  y <= 9999 -> 1 <= m <= 12 -> 1 <= d <= 31 ->
  valid_date (isoformat_date y m d)
  = (1 <=? y) && (d <=? days_in_month y m)
  /\ (m = 2 -> d = 29 ->
      valid_date (isoformat_date y m d)
      = (1 <=? y) && (y mod 4 =? 0)
        && (negb (y mod 100 =? 0) || (y mod 400 =? 0))).
Proof.
  intros Hy Hm Hd.
  assert (Hvalid : valid_date (isoformat_date y m d) = date_ok y m d).
  { unfold valid_date. rewrite strptime_isoformat by assumption.
    now destruct (date_ok y m d). }
  assert (Hdate : date_ok y m d = (1 <=? y) && (d <=? days_in_month y m)).
  { unfold date_ok.
    replace (y <=? 9999) with true by (symmetry; apply N.leb_le; lia).
    replace (1 <=? m) with true by (symmetry; apply N.leb_le; lia).
    replace (m <=? 12) with true by (symmetry; apply N.leb_le; lia).
    replace (1 <=? d) with true by (symmetry; apply N.leb_le; lia).
    now rewrite !andb_true_r. }
  rewrite Hvalid, Hdate. split; [reflexivity|].
  intros -> ->. unfold days_in_month, is_leap.
  rewrite <- andb_assoc. f_equal.
  now destruct ((y mod 4 =? 0) && (negb (y mod 100 =? 0) || (y mod 400 =? 0))).
Qed.

Lemma valid_date_follows_calendar_witness :
  valid_date (isoformat_date 1900 2 29)
  = (1 <=? 1900) && (29 <=? days_in_month 1900 2).
Proof.
  apply (proj1 (valid_date_follows_calendar 1900 2 29 ltac:(lia) ltac:(lia)
                  ltac:(lia))).
Defined.

(** X12.  The converter of the [--start] and [--end] options accepts
    exactly the texts that pass [valid_date] and raises [ValueError] on the
    others.  What it returns is the same day in its ten-character form,
    which passes [valid_date] and which the converter leaves unchanged. *)
Theorem cli_date_normalises (s : string) :
  (valid_date s = true ->
     exists s', cli_date s = Ok s'
       /\ strptime s' = strptime s
       /\ valid_date s' = true
       /\ cli_date s' = Ok s'
       /\ String.length s' = 10%nat)
  /\ (valid_date s = false -> cli_date s = Raise ValueError).
Proof.
  split.
  - unfold valid_date.
    destruct (strptime s) as [[[y m] d]|e] eqn:Hparse; [|discriminate].
    intros _.
    destruct (strptime_Ok_inv s y m d Hparse) as (Hok & _).
    pose proof (strptime_isoformat_ok y m d Hok) as Hiso.
    exists (isoformat_date y m d). unfold cli_date, valid_date.
    rewrite Hparse, Hiso. simpl. repeat split; reflexivity.
  - unfold valid_date, cli_date.
    destruct (strptime s) as [ymd|e] eqn:Hparse; [discriminate|].
    intros _. simpl. f_equal.
    unfold strptime in Hparse.
    destruct (regex_match (list_ascii_of_string s)) as [|[[[y m] d] rest] more];
      [congruence|].
    destruct rest; [|congruence].
    destruct (date_ok y m d); congruence.
Qed.

Lemma cli_date_normalises_witness :
  exists s', cli_date "2021-2-5" = Ok s'
    /\ strptime s' = strptime "2021-2-5"
    /\ valid_date s' = true
    /\ cli_date s' = Ok s'
    /\ String.length s' = 10%nat.
Proof. apply (proj1 (cli_date_normalises "2021-2-5")). reflexivity. Defined.

End Iso_dates.

(** X13.  Dates that went through the converter of the command line never
    stop the fetch: it sends its one request, with these dates as [start]
    and [end], and returns what the server holds. *)
Theorem cli_dates_pass_validation (w : World) (asset columns interval : string)
  (start_text end_text start_date end_date : string) (log : list request) :
  cli_date start_text = Ok start_date ->
  cli_date end_text = Ok end_date ->
  get_asset_price_history w asset (Some start_date) (Some end_date)
                          columns interval log
  = (Ok (timeseries_values w
           (price_request asset columns interval start_date end_date)),
     log ++ [price_request asset columns interval start_date end_date]).
Proof.
  intros Hs He.
  assert (Hnorm : forall t t', cli_date t = Ok t' ->
                    valid_date t' = true /\ truthy t' = true).
  { intros t t' Ht.
    destruct (cli_date_Ok_inv t t' Ht) as (y & m & d & _ & Hok & ->).
    split; [|reflexivity].
    unfold valid_date. now rewrite (strptime_isoformat_ok y m d Hok). }
  destruct (Hnorm _ _ Hs) as [Hvs Hts]. destruct (Hnorm _ _ He) as [Hve Hte].
  pose proof (get_asset_price_history_run w asset (Some start_date)
                (Some end_date) columns interval log) as Hrun.
  rewrite !or_default_supplied in Hrun by assumption.
  now apply Hrun.
Qed.

Lemma cli_dates_pass_validation_witness :
  get_asset_price_history (sample_world [] []) "btc"
    (Some "2021-02-05"%string) (Some "2021-12-31"%string) "close" "1d" []
  = (Ok [], [price_request "btc" "close" "1d" "2021-02-05" "2021-12-31"]).
Proof.
  apply (cli_dates_pass_validation (sample_world [] []) "btc" "close" "1d"
           "2021-2-5" "2021-12-31" "2021-02-05" "2021-12-31" []);
    reflexivity.
Defined.

(** ** More on the price-history fetch and table *)

(** X14.  [get_asset_price_history] returns only after validation and one
    request.  Whenever it returns, the start and end dates, absent or empty
    ones being replaced by the defaults, both pass [valid_date]; exactly one
    request was added to those already sent, a [GET] to the time-series
    endpoint of the asset with the four parameters [columns], [interval],
    [start] and [end]; and the result is the list of values of the reply to
    that request. *)
Theorem price_fetch_returns_after_one_request (w : World) (asset : string)
  (start_date end_date : option string) (columns interval : string)
  (log log' : list request) (ts : list point) :
  get_asset_price_history w asset start_date end_date columns interval log
  = (Ok ts, log') ->
  let r := mk_request "GET"
             (BASE_URL ++ "/api/v1/assets/" ++ asset
              ++ "/metrics/price/time-series")
             [("columns"%string, Some columns); ("interval"%string, Some interval);
              ("start"%string, Some (settled_start w start_date));
              ("end"%string, Some (settled_end w end_date))] in
  valid_date (settled_start w start_date) = true
  /\ valid_date (settled_end w end_date) = true
  /\ log' = log ++ [r]
  /\ ts = timeseries_values w r.
Proof.
  intros Hrun r.
  destruct (valid_date (settled_start w start_date)) eqn:Hs;
    [destruct (valid_date (settled_end w end_date)) eqn:He|].
  - rewrite (get_asset_price_history_run w asset start_date end_date
               columns interval log Hs He) in Hrun.
    injection Hrun as <- <-. now repeat split.
  - rewrite get_asset_price_history_invalid in Hrun by (now right).
    discriminate.
  - rewrite get_asset_price_history_invalid in Hrun by (now left).
    discriminate.
Qed.

Lemma price_fetch_returns_after_one_request_witness :
  valid_date (settled_start (sample_world [] []) None) = true
  /\ valid_date (settled_end (sample_world [] []) (Some "2021-02-01"%string)) = true
  /\ [price_request "btc" "close" "1d" "2020-06-15" "2021-02-01"]
     = [] ++ [price_request "btc" "close" "1d" "2020-06-15" "2021-02-01"]
  /\ [] = timeseries_values (sample_world [] [])
            (price_request "btc" "close" "1d" "2020-06-15" "2021-02-01").
Proof.
  exact (price_fetch_returns_after_one_request (sample_world [] []) "btc"
           None (Some "2021-02-01"%string) "close" "1d" [] _ [] eq_refl).
Defined.



(** X17.  The row labels of a returned table are made from the timestamps
    of the first asset's series alone, one label per point, each from the
    whole seconds of its timestamp; no series has more points than there
    are rows. *)
Theorem table_rows_come_from_first_asset (w : World) (first : string)
  (rest : list string) (start_date end_date : option string)
  (columns interval : string) (log log' : list request) (T : DataFrame) :
  get_assets_price_history_pd w (first :: rest) start_date end_date
                              columns interval log = (Ok T, log') ->
  df_index T
  = map (fun p => local_date w (Z.quot (fst p) 1000))
        (fetched w start_date end_date columns interval first)
  /\ List.length (df_index T)
     = List.length (fetched w start_date end_date columns interval first)
  /\ forall a, In a (first :: rest) ->
       List.length (fetched w start_date end_date columns interval a)
       <= List.length (df_index T).
Proof.
  intros Hrun.
  destruct (price_table_columns w start_date end_date columns interval
              (first :: rest) log log' T Hrun)
    as (_ & Hidx & Hle & _).
  simpl hd in Hidx. rewrite Hidx. unfold date_column, ms_to_sec.
  rewrite map_map. split; [reflexivity|]. split.
  - now rewrite length_map.
  - intros a Ha. specialize (Hle a Ha). rewrite Hidx in Hle.
    unfold date_column in Hle. now rewrite map_map in Hle.
Qed.

Lemma table_rows_come_from_first_asset_witness :
  exists T log',
    get_assets_price_history_pd world_B_shorter ["A"%string; "B"%string]
      (Some "2021-01-01"%string) (Some "2021-02-01"%string) "close" "1d" []
    = (Ok T, log')
    /\ df_index T = ["1970-01-01"%string; "1970-01-02"%string].
Proof.
  eexists. eexists. split; [reflexivity|].
  exact (proj1 (table_rows_come_from_first_asset world_B_shorter "A"
                  ["B"%string] (Some "2021-01-01"%string)
                  (Some "2021-02-01"%string) "close" "1d" [] _ _ eq_refl)).
Defined.

(** ** Dicts filled key after key *)

Local Abbreviation see :=
  (fun (acc : list string) (a : string) =>
     if existsb (String.eqb a) acc then acc else acc ++ [a]).

Lemma existsb_eqb_In (a : string) (l : list string) :
  existsb (String.eqb a) l = true <-> In a l.
Proof.
  rewrite existsb_exists. split.
  - intros (x & Hx & Heq). apply String.eqb_eq in Heq. now subst x.
  - intros Hin. exists a. split; [exact Hin | apply String.eqb_refl].
Qed.

Lemma see_all_In (l : list string) : forall acc x,
  In x (fold_left see l acc) <-> In x acc \/ In x l.
Proof.
  induction l as [|a l IH]; intros acc x; simpl; [tauto|].
  rewrite IH. destruct (existsb (String.eqb a) acc) eqn:He.
  - apply existsb_eqb_In in He. split; [tauto|].
    intros [H|[<-|H]]; tauto.
  - rewrite in_app_iff. simpl. tauto.
Qed.

Lemma see_all_NoDup (l : list string) : forall acc,
  NoDup acc -> NoDup (fold_left see l acc).
Proof.
  induction l as [|a l IH]; intros acc Hnd; [exact Hnd|].
  simpl. apply IH. destruct (existsb (String.eqb a) acc) eqn:He; [exact Hnd|].
  apply NoDup_Add with (a := a) (l := acc).
  - rewrite <- (app_nil_r acc) at 1. apply Add_app.
  - split; [exact Hnd|]. intros Hin. apply existsb_eqb_In in Hin. congruence.
Qed.

Lemma see_all_distinct (l : list string) : forall acc,
  NoDup (acc ++ l) -> fold_left see l acc = acc ++ l.
Proof.
  induction l as [|a l IH]; intros acc Hnd; simpl; [now rewrite app_nil_r|].
  pose proof (NoDup_remove_2 _ _ _ Hnd) as Hnot.
  destruct (existsb (String.eqb a) acc) eqn:He.
  - apply existsb_eqb_In in He. exfalso. apply Hnot, in_or_app. now left.
  - rewrite IH; rewrite <- app_assoc; [reflexivity | exact Hnd].
Qed.

Section Assign_all.
Context {V : Type} (g : string -> V).

Local Abbreviation assign := (fun (D : dict V) (a : string) => dict_set a (g a) D).

Lemma keys_assign_all (l : list string) : forall D : dict V,
  keys (fold_left assign l D) = fold_left see l (keys D).
Proof.
  induction l as [|a l IH]; intros D; [reflexivity|].
  simpl. rewrite IH. f_equal.
  destruct (existsb (String.eqb a) (keys D)) eqn:He.
  - apply keys_dict_set_present. now apply existsb_eqb_In.
  - rewrite dict_set_fresh.
    + unfold keys. now rewrite map_app.
    + intros Hin. apply existsb_eqb_In in Hin. congruence.
Qed.

Lemma merge_singles_assign (l : list string) : forall acc : dict V,
  fold_left (@dict_update V) (map (fun a => [(a, g a)]) l) acc
  = fold_left assign l acc.
Proof. induction l as [|a l IH]; intros acc; [reflexivity | apply IH]. Qed.

End Assign_all.

Lemma keys_pad_columns (M : nat) (D : dict (list number)) :
  keys (pad_columns M D) = keys D.
Proof. unfold keys, pad_columns. rewrite map_map. reflexivity. Qed.

Lemma align_Ok_keys (w : World) (f : string -> list point)
  (assets : list string) (T : DataFrame) :
  align w assets (map f assets) = Ok T ->
  keys (df_columns T) = first_seen assets.
Proof.
  intros Halign.
  assert (Hne : forall a, In a assets -> f a <> []).
  { intros a Ha He.
    rewrite (align_empty_series w f assets a Ha He) in Halign. discriminate. }
  destruct assets as [|a0 rest]; [discriminate|].
  unfold align in Halign.
  replace (first_item (map f (a0 :: rest))) with (Ok (f a0)) in Halign
    by reflexivity.
  unfold rbind at 1 in Halign.
  replace (np_column fst (f a0)) with (Ok (map fst (f a0))) in Halign
    by (specialize (Hne a0 (or_introl eq_refl)); destruct (f a0) as [|p l];
        [congruence | simpl; now rewrite np_asarray_times]).
  unfold rbind at 1 in Halign.
  rewrite (prep_data_ok f (a0 :: rest) Hne) in Halign.
  unfold rbind at 1 in Halign.
  set (D := merge_dicts (map (fun a => [(a, array_values (f a))]) (a0 :: rest)))
    in Halign.
  assert (HD : keys D = first_seen (a0 :: rest)).
  { unfold D, merge_dicts.
    rewrite (merge_singles_assign (fun a => array_values (f a))).
    now rewrite keys_assign_all. }
  destruct (py_max (map (@List.length number) (values D))) as [M|e];
    [|discriminate].
  unfold rbind in Halign. apply pd_DataFrame_Ok in Halign as [-> _].
  simpl df_columns.
  destruct (negb (all_eq (map (@List.length number) (values D))));
    [now rewrite keys_pad_columns | exact HD].
Qed.

(** X18.  The columns of a returned table are the asset keys in the order
    in which the asset list first names them, each key once; for a list of
    distinct keys they are the asset list itself. *)
Theorem table_columns_follow_asset_list (w : World) (assets : list string)
  (start_date end_date : option string) (columns interval : string)
  (log log' : list request) (T : DataFrame) :
  get_assets_price_history_pd w assets start_date end_date columns interval log
  = (Ok T, log') ->
  keys (df_columns T) = first_seen assets
  /\ NoDup (keys (df_columns T))
  /\ (forall a, In a (keys (df_columns T)) <-> In a assets)
  /\ (NoDup assets -> keys (df_columns T) = assets).
Proof.
  rewrite price_table_cases.
  destruct assets as [|a0 rest]; [discriminate|].
  destruct (_ && _); [|discriminate].
  intros Hrun.
  assert (Halign : align w (a0 :: rest)
                     (map (fetched w start_date end_date columns interval)
                          (a0 :: rest)) = Ok T) by congruence.
  apply align_Ok_keys in Halign. rewrite Halign. unfold first_seen.
  split; [reflexivity|]. split; [apply see_all_NoDup; constructor|]. split.
  - intros a. rewrite see_all_In. simpl. tauto.
  - intros Hnd. now rewrite see_all_distinct.
Qed.

Lemma table_columns_follow_asset_list_witness :
  exists T log',
    get_assets_price_history_pd world_same_length
      ["B"%string; "A"%string; "B"%string]
      (Some "2021-01-01"%string) (Some "2021-02-01"%string) "close" "1d" []
    = (Ok T, log')
    /\ keys (df_columns T) = first_seen ["B"%string; "A"%string; "B"%string].
Proof.
  eexists. eexists. split; [reflexivity|].
  exact (proj1 (table_columns_follow_asset_list world_same_length
                  ["B"%string; "A"%string; "B"%string]
                  (Some "2021-01-01"%string) (Some "2021-02-01"%string)
                  "close" "1d" [] _ _ eq_refl)).
Defined.

(** ** More on the metrics frame *)

Section Metrics_facts.
Variable w : World.
Variable flatten_df : bool.

Local Abbreviation reply := (fun a => metrics_json w (metrics_request a)).
Local Abbreviation series_or_empty :=
  (fun a => match metrics_series flatten_df (reply a) with
            | Ok s => s
            | Raise _ => []
            end).

Lemma metrics_loop_Ok_inv (assets : list string) :
  forall (D D' : dict Series) (log log' : list request),
    metrics_loop w flatten_df assets D log = (Ok D', log') ->
    log' = log ++ map metrics_request assets
    /\ (forall a, In a assets ->
          metrics_series flatten_df (reply a) = Ok (series_or_empty a))
    /\ D' = fold_left (fun D a => dict_set a (series_or_empty a) D) assets D.
Proof.
  induction assets as [|a rest IH]; intros D D' log log' Hrun.
  - simpl in Hrun. unfold ret in Hrun. injection Hrun as <- <-.
    rewrite app_nil_r. split; [reflexivity|]. split; [now intros ? []|reflexivity].
  - simpl in Hrun. unfold bind at 1 in Hrun.
    rewrite get_asset_metrics_run in Hrun.
    unfold bind at 1, lift in Hrun.
    destruct (metrics_series flatten_df (metrics_json w (metrics_request a)))
      as [s|e] eqn:Hs; [|discriminate].
    apply IH in Hrun. destruct Hrun as (-> & Hall & ->).
    rewrite <- app_assoc. simpl. rewrite Hs.
    split; [reflexivity|]. split; [|reflexivity].
    intros a' [<-|Ha']; [now rewrite Hs | now apply Hall].
Qed.

Lemma metrics_loop_fail (pre : list string) (a : string) (post : list string)
  (e : PyExn) :
  (forall x, In x pre -> exists s, metrics_series flatten_df (reply x) = Ok s) ->
  metrics_series flatten_df (reply a) = Raise e ->
  forall (D : dict Series) (log : list request),
    metrics_loop w flatten_df (pre ++ a :: post) D log
    = (Raise e, log ++ map metrics_request (pre ++ [a])).
Proof.
  intros Hpre Ha. induction pre as [|x pre IH]; intros D log.
  - simpl. unfold bind at 1. rewrite get_asset_metrics_run.
    unfold bind at 1, lift. now rewrite Ha.
  - simpl. unfold bind at 1. rewrite get_asset_metrics_run.
    unfold bind at 1, lift.
    destruct (Hpre x (or_introl eq_refl)) as (s & ->).
    rewrite IH by (intros y Hy; apply Hpre; now right).
    now rewrite <- app_assoc.
Qed.

End Metrics_facts.

Lemma metrics_series_errors (flatten_df : bool) (metrics : json) (e : PyExn) :
  metrics_series flatten_df metrics = Raise e ->
  (e = TypeError /\ is_mapping metrics = false)
  \/ (e = KeyError /\ exists d, metrics = JDict d /\ dict_get "data" d = None)
  \/ (e = AttributeError /\ flatten_df = true
      /\ exists d data, metrics = JDict d /\ dict_get "data" d = Some data
                        /\ is_mapping data = false).
Proof.
  unfold metrics_series, subscript_data.
  destruct metrics as [| | | | | |d];
    try (intros H; injection H as <-; left; split; reflexivity).
  destruct (dict_get "data" d) as [data|] eqn:Hdata.
  - simpl. destruct flatten_df; [|discriminate].
    destruct data; simpl; try discriminate;
      intros H; injection H as <-; right; right;
      (split; [reflexivity|]); (split; [reflexivity|]);
      eexists; eexists; (split; [reflexivity|]);
      (split; [exact Hdata | reflexivity]).
  - intros H. injection H as <-. right. left.
    split; [reflexivity|]. now exists d.
Qed.

(** X19.  [get_assets_metrics_pd] stops at the first reply it cannot use.
    The assets before it have been asked one after the other, the failing
    one is the last request sent, the assets after it are never asked, and
    no partial frame is returned.  The exception is [TypeError] when the
    reply is not a mapping, [KeyError] when it has no ["data"] entry, and
    [AttributeError] when flattening is on and the entry is not a mapping.
    Without an asset list the call raises [TypeError] and asks nothing. *)
Theorem metrics_stop_at_first_failure :
  (forall (w : World) (flatten_df : bool) (log : list request),
     get_assets_metrics_pd w None flatten_df log = (Raise TypeError, log))
  /\ (forall (w : World) (flatten_df : bool) (pre : list string) (a : string)
             (post : list string) (e : PyExn) (log : list request),
        (forall x, In x pre ->
           exists s, metrics_series flatten_df
                       (metrics_json w (metrics_request x)) = Ok s) ->
        metrics_series flatten_df (metrics_json w (metrics_request a)) = Raise e ->
        get_assets_metrics_pd w (Some (pre ++ a :: post)) flatten_df log
        = (Raise e, log ++ map metrics_request (pre ++ [a]))
        /\ ((e = TypeError
             /\ is_mapping (metrics_json w (metrics_request a)) = false)
            \/ (e = KeyError
                /\ exists d, metrics_json w (metrics_request a) = JDict d
                             /\ dict_get "data" d = None)
            \/ (e = AttributeError /\ flatten_df = true
                /\ exists d data,
                     metrics_json w (metrics_request a) = JDict d
                     /\ dict_get "data" d = Some data
                     /\ is_mapping data = false))).
Proof.
  split; [reflexivity|].
  intros w flatten_df pre a post e log Hpre Ha. split.
  - unfold get_assets_metrics_pd. now apply metrics_loop_fail.
  - now apply metrics_series_errors.
Qed.

Lemma metrics_stop_at_first_failure_witness :
  get_assets_metrics_pd
    (sample_world []
       [("btc"%string, JDict [("data"%string, JDict [("rank"%string, JInt 1)])]);
        ("bad"%string, JDict [("status"%string, JStr "not found")]);
        ("eth"%string, JDict [("data"%string, JDict [("rank"%string, JInt 2)])])])
    (Some (["btc"%string] ++ "bad"%string :: ["eth"%string])) true []
  = (Raise KeyError, [] ++ map metrics_request (["btc"%string] ++ ["bad"%string])).
Proof.
  refine (proj1 (proj2 metrics_stop_at_first_failure _ true ["btc"%string]
                   "bad"%string ["eth"%string] KeyError [] _ _)).
  - intros x [<-|[]]. eexists. reflexivity.
  - reflexivity.
Defined.

(** X20.  When [get_assets_metrics_pd] returns, one request per entry of
    the asset list has been sent, in the order of the list and repeated
    keys included; the frame has one column per distinct asset, in the
    order in which the list first names them. *)
Theorem metrics_frame_columns (w : World) (assets : list string)
  (flatten_df : bool) (log log' : list request) (frame : dict Series) :
  get_assets_metrics_pd w (Some assets) flatten_df log = (Ok frame, log') ->
  log' = log ++ map metrics_request assets
  /\ keys frame = first_seen assets
  /\ NoDup (keys frame)
  /\ (forall a, In a (keys frame) <-> In a assets).
Proof.
  unfold get_assets_metrics_pd. intros Hrun.
  apply metrics_loop_Ok_inv in Hrun. destruct Hrun as (-> & Hall & ->).
  set (S := fun a => match metrics_series flatten_df
                             (metrics_json w (metrics_request a)) with
                     | Ok s => s
                     | Raise _ => []
                     end) in *.
  assert (Hkeys : keys (fold_left (fun D a => dict_set a (S a) D) assets [])
                  = first_seen assets)
    by (now rewrite (keys_assign_all S)).
  split; [reflexivity|].
  match goal with
  | |- ?k = _ /\ _ => assert (Hk : k = first_seen assets) by exact Hkeys
  end.
  rewrite Hk. split; [reflexivity|]. split.
  - unfold first_seen. apply see_all_NoDup. constructor.
  - intros a. unfold first_seen. rewrite see_all_In. simpl. tauto.
Qed.

Lemma metrics_frame_columns_witness :
  let w := sample_world []
             [("btc"%string,
               JDict [("data"%string,
                       JDict [("market"%string,
                               JDict [("price"%string, JFloat (5 # 2));
                                      ("open"%string, JBool true);
                                      ("note"%string, JStr "n/a")])])])] in
  exists frame log',
    get_assets_metrics_pd w (Some ["btc"%string; "btc"%string]) true []
    = (Ok frame, log')
    /\ keys frame = first_seen ["btc"%string; "btc"%string].
Proof.
  intros w. eexists. eexists. split; [reflexivity|].
  exact (proj1 (proj2 (metrics_frame_columns w ["btc"%string; "btc"%string]
                         true [] _ _ eq_refl))).
Defined.

Lemma metrics_series_Ok_iff (flatten_df : bool) (metrics : json) :
  (exists s, metrics_series flatten_df metrics = Ok s)
  <-> exists d data,
        metrics = JDict d /\ dict_get "data" d = Some data
        /\ (flatten_df = true -> is_mapping data = true).
Proof.
  split.
  - intros (s & Hs).
    destruct (metrics_series flatten_df metrics) as [s'|e] eqn:Hm; [|discriminate].
    unfold metrics_series, subscript_data in Hm.
    destruct metrics; try discriminate.
    destruct (dict_get "data" d) as [data|] eqn:Hdata; [|discriminate].
    exists d, data. split; [reflexivity|]. split; [exact Hdata|].
    intros Hfl. subst flatten_df. simpl in Hm. now destruct data.
  - intros (d & data & -> & Hdata & Hmap).
    unfold metrics_series, subscript_data. rewrite Hdata. simpl.
    destruct flatten_df; [|eexists; reflexivity].
    specialize (Hmap eq_refl). destruct data; try discriminate.
    eexists. reflexivity.
Qed.

(** X21.  [get_assets_metrics_pd] returns a frame exactly when every asset
    of the list gets a reply that is a mapping with a ["data"] entry and,
    if flattening is on, that entry is itself a mapping. *)
Theorem metrics_frame_returned_iff (w : World) (assets : list string)
  (flatten_df : bool) (log : list request) :
  (exists frame,
     fst (get_assets_metrics_pd w (Some assets) flatten_df log) = Ok frame)
  <-> forall a, In a assets ->
        exists d data,
          metrics_json w (metrics_request a) = JDict d
          /\ dict_get "data" d = Some data
          /\ (flatten_df = true -> is_mapping data = true).
Proof.
  unfold get_assets_metrics_pd. split.
  - intros (frame & Hrun) a Ha.
    destruct (metrics_loop w flatten_df assets [] log) as [r log'] eqn:Hloop.
    simpl in Hrun. subst r.
    apply metrics_loop_Ok_inv in Hloop. destruct Hloop as (_ & Hall & _).
    apply (metrics_series_Ok_iff flatten_df). eexists. now apply Hall.
  - intros Hall.
    set (S := fun a => match metrics_series flatten_df
                               (metrics_json w (metrics_request a)) with
                       | Ok s => s
                       | Raise _ => []
                       end).
    destruct (metrics_loop_run w flatten_df S assets) with (D := @nil (string * Series)) (log := log)
      as (frame & Hrun & _).
    + intros a Ha. unfold S.
      destruct (proj2 (metrics_series_Ok_iff flatten_df _) (Hall a Ha)) as (s & ->).
      reflexivity.
    + exists frame. now rewrite Hrun.
Qed.

(** X22.  [get_assets_price_history_pd] never returns a table unless the
    asset list is not empty, both dates (after defaulting) pass
    [valid_date], every series has at least one point and no series is
    longer than the first asset's. *)
Theorem price_table_returned_only_if (w : World) (assets : list string)
  (start_date end_date : option string) (columns interval : string)
  (log log' : list request) (T : DataFrame) :
  get_assets_price_history_pd w assets start_date end_date columns interval log
  = (Ok T, log') ->
  assets <> []
  /\ valid_date (settled_start w start_date) = true
  /\ valid_date (settled_end w end_date) = true
  /\ forall a, In a assets ->
       1 <= List.length (fetched w start_date end_date columns interval a)
       <= List.length (fetched w start_date end_date columns interval
                               (hd ""%string assets)).
Proof.
  intros Htable.
  pose proof (price_table_columns w start_date end_date columns interval
                assets log log' T Htable) as (_ & Hidx & Hle & _).
  rewrite price_table_cases in Htable.
  destruct assets as [|a0 rest]; [discriminate|].
  split; [discriminate|].
  destruct (valid_date (settled_start w start_date));
    [|discriminate].
  destruct (valid_date (settled_end w end_date)); [|discriminate].
  split; [reflexivity|]. split; [reflexivity|].
  intros a Ha. split.
  - destruct (fetched w start_date end_date columns interval a) eqn:He;
      [|simpl; lia].
    simpl andb in Htable. cbv iota in Htable.
    rewrite (align_empty_series w _ (a0 :: rest) a Ha He) in Htable.
    discriminate.
  - specialize (Hle a Ha). rewrite Hidx in Hle.
    unfold date_column in Hle. now rewrite !length_map in Hle.
Qed.

Lemma price_table_returned_only_if_witness :
  ["A"%string; "B"%string] <> []
  /\ valid_date (settled_start world_B_shorter (Some "2021-01-01"%string)) = true
  /\ valid_date (settled_end world_B_shorter (Some "2021-02-01"%string)) = true
  /\ forall a, In a ["A"%string; "B"%string] ->
       1 <= List.length (fetched world_B_shorter (Some "2021-01-01"%string)
                                 (Some "2021-02-01"%string) "close" "1d" a)
       <= List.length (fetched world_B_shorter (Some "2021-01-01"%string)
                               (Some "2021-02-01"%string) "close" "1d"
                               (hd ""%string ["A"%string; "B"%string])).
Proof.
  exact (price_table_returned_only_if world_B_shorter ["A"%string; "B"%string]
           (Some "2021-01-01"%string) (Some "2021-02-01"%string) "close" "1d"
           [] _ _ eq_refl).
Defined.

(** ** The endpoints *)

Lemma list_ascii_app (a b : string) :
  list_ascii_of_string (a ++ b)
  = list_ascii_of_string a ++ list_ascii_of_string b.
Proof. induction a as [|c a IH]; simpl; [reflexivity | now rewrite IH]. Qed.

Lemma string_app_inv_tail (x y q : string) :
  (x ++ q = y ++ q)%string -> x = y.
Proof.
  intros H. apply (f_equal list_ascii_of_string) in H.
  rewrite !list_ascii_app in H. apply app_inv_tail in H.
  rewrite <- (string_of_list_ascii_of_string x),
          <- (string_of_list_ascii_of_string y).
  now rewrite H.
Qed.

(** X24.  The endpoints keep assets apart: two asset keys that differ are
    never sent to the same URL, neither for the metrics nor for the price
    time series. *)
Theorem endpoints_distinguish_assets (a b : string)
  (columns interval start_date end_date : string) :
  (metrics_request a = metrics_request b -> a = b)
  /\ (price_request a columns interval start_date end_date
      = price_request b columns interval start_date end_date -> a = b).
Proof.
  unfold metrics_request, price_request.
  split; intros H; injection H as H; now apply string_app_inv_tail in H.
Qed.

(** ** What a returned table and a flattened record are made of *)

(** X25.  A returned price table is rectangular: every column has exactly
    one value per row label, and the number of rows is the length of a
    longest series. *)
Theorem returned_table_is_rectangular (w : World) (assets : list string)
  (start_date end_date : option string) (columns interval : string)
  (log log' : list request) (T : DataFrame) :
  get_assets_price_history_pd w assets start_date end_date columns interval log
  = (Ok T, log') ->
  (forall k column, In (k, column) (df_columns T) ->
     List.length column = List.length (df_index T))
  /\ (forall a, In a assets ->
        List.length (fetched w start_date end_date columns interval a)
        <= List.length (df_index T))
  /\ (exists a, In a assets
        /\ List.length (fetched w start_date end_date columns interval a)
           = List.length (df_index T)).
Proof.
  intros Hrun.
  destruct (price_table_columns w start_date end_date columns interval
              assets log log' T Hrun)
    as (_ & _ & Hle & Hmax & _).
  split; [|split; [exact Hle | exact Hmax]].
  intros k column Hin.
  apply (price_table_column_length w start_date end_date columns interval
           assets log log' T k column Hrun Hin).
Qed.

Lemma returned_table_is_rectangular_witness :
  exists T log',
    get_assets_price_history_pd world_B_shorter ["A"%string; "B"%string]
      (Some "2021-01-01"%string) (Some "2021-02-01"%string) "close" "1d" []
    = (Ok T, log')
    /\ forall k column, In (k, column) (df_columns T) ->
         List.length column = List.length (df_index T).
Proof.
  eexists. eexists. split; [reflexivity|].
  exact (proj1 (returned_table_is_rectangular world_B_shorter
                  ["A"%string; "B"%string] (Some "2021-01-01"%string)
                  (Some "2021-02-01"%string) "close" "1d" [] _ _ eq_refl)).
Defined.

Lemma leaf_paths_value_at (d : dict json) :
  forall path v, In (path, v) (leaf_paths (JDict d)) -> value_at d path v.
Proof.
  induction d as [|k0 v0 rest IHv IHrest] using dict_json_ind;
    intros path v Hin; [contradiction|].
  rewrite leaf_paths_cons in Hin. apply in_app_or in Hin as [Hin|Hin].
  - destruct v0;
      try (destruct Hin as [Heq|[]]; injection Heq as <- <-;
           apply value_here; now left).
    apply in_map_iff in Hin. destruct Hin as ([p x] & Heq & Hin).
    injection Heq as <- <-. apply value_below with (d' := d); [now left|].
    now apply (IHv d eq_refl).
  - specialize (IHrest path v Hin).
    inversion IHrest as [? k x Hkx | ? d' k p x Hkd Hat]; subst.
    + apply value_here. now right.
    + apply value_below with (d' := d'); [now right | exact Hat].
Qed.

(** X26.  [flatten] invents nothing: every entry of its result is a value
    of the input that is not a mapping, found by following a path of keys,
    and the entry's key is the one built from that path. *)
Theorem flatten_entries_come_from_leaves (d : dict json)
  (parent_key sep : string) (k : string) (v : json) :
  In (k, v) (flatten d parent_key sep) ->
  exists path,
    value_at d path v /\ is_mapping v = false
    /\ k = flat_key sep parent_key path.
Proof.
  intros Hin. apply flatten_In_leaf in Hin. unfold leaf_items in Hin.
  apply in_map_iff in Hin. destruct Hin as ([path x] & Heq & Hin).
  injection Heq as <- <-. exists path. simpl. split; [|split].
  - now apply leaf_paths_value_at.
  - now apply (leaf_paths_values d path x).
  - reflexivity.
Qed.

Lemma flatten_entries_come_from_leaves_witness :
  exists path,
    value_at [("a"%string, JDict [("b"%string, JInt 2)])] path (JInt 2)
    /\ is_mapping (JInt 2) = false
    /\ "a_b"%string = flat_key "_" "" path.
Proof.
  apply (flatten_entries_come_from_leaves
           [("a"%string, JDict [("b"%string, JInt 2)])] "" "_" "a_b" (JInt 2)).
  now left.
Defined.
